(** * A shallow embedding of update-weather.js (SECAR weather report)

    The repository holds three versions of the same Node script:
    - [src/update-weather.js]      ("v1": NHC JSON, NHC RSS, CurrentStorms),
    - [src/unnamed/part_000]       ("v2": NHC JSON with a single maximum, ...),
    - [src/unnamed/part_001]       ("v3": NWS text products, tropical alerts, ...).
    Functions shared verbatim by all three (processAlerts,
    generateFallbackConditions, getSeasonalConditions, the highlighting chain
    of generateReport) are modelled once.

    Strings are Rocq [string]s holding the UTF-8 bytes of the JavaScript
    text; the character classes of the regular expressions (\s, \d, case
    folding of the /i flag, trim) are modelled on ASCII.  Network responses
    are inputs; an exception raised inside a [try] block is modelled by the
    branch taken by its [catch]. *)

From Stdlib Require Import String Ascii ZArith List Bool Lia Arith.
From Stdlib Require Import Sorting.Permutation.
From Stdlib Require Import Numbers.DecimalString Numbers.DecimalZ.
Import ListNotations.
Open Scope string_scope.
Open Scope nat_scope.

(* ------------------------------------------------------------------ *)
(** ** Characters and string primitives *)

Definition chr (n : nat) : ascii := ascii_of_nat n.
Definition str1 (c : ascii) : string := String c EmptyString.

(** The double quote, written out since HTML attributes need it. *)
Definition dq : string := str1 (chr 34).
Definition nl : string := str1 (chr 10).

(** \s and the characters removed by String.prototype.trim (ASCII part). *)
Definition is_space (c : ascii) : bool :=
  let n := nat_of_ascii c in
  ((9 <=? n) && (n <=? 13)) || (n =? 32).

Definition is_digit (c : ascii) : bool :=
  let n := nat_of_ascii c in (48 <=? n) && (n <=? 57).

Definition digit_val (c : ascii) : Z := Z.of_nat (nat_of_ascii c - 48).

(** . of a regular expression without the s flag stops at \n and \r. *)
Definition is_line_term (c : ascii) : bool :=
  let n := nat_of_ascii c in (n =? 10) || (n =? 13).

Definition lower_char (c : ascii) : ascii :=
  let n := nat_of_ascii c in
  if (65 <=? n) && (n <=? 90) then chr (n + 32) else c.

(** String.prototype.toLowerCase *)
Fixpoint to_lower (s : string) : string :=
  match s with
  | EmptyString => EmptyString
  | String c t => String (lower_char c) (to_lower t)
  end.

(** [starts_with p s]: [p] is a prefix of [s]. *)
Fixpoint starts_with (p s : string) : bool :=
  match p, s with
  | EmptyString, _ => true
  | String a p', String b s' => Ascii.eqb a b && starts_with p' s'
  | String _ _, EmptyString => false
  end.

(** Prefix test of the /i flag. *)
Fixpoint starts_with_ci (p s : string) : bool :=
  match p, s with
  | EmptyString, _ => true
  | String a p', String b s' =>
      Ascii.eqb (lower_char a) (lower_char b) && starts_with_ci p' s'
  | String _ _, EmptyString => false
  end.

(** String.prototype.includes *)
Fixpoint includes (s q : string) : bool :=
  match s with
  | EmptyString => starts_with q s
  | String _ t => starts_with q s || includes t q
  end.

Fixpoint drop_n (n : nat) (s : string) : string :=
  match n, s with
  | 0, _ => s
  | S n', String _ s' => drop_n n' s'
  | S _, EmptyString => EmptyString
  end.

(** s.substring(0, n) *)
Fixpoint take_n (n : nat) (s : string) : string :=
  match n, s with
  | 0, _ => EmptyString
  | S n', String c s' => String c (take_n n' s')
  | S _, EmptyString => EmptyString
  end.

Fixpoint trim_start (s : string) : string :=
  match s with
  | String c t => if is_space c then trim_start t else s
  | EmptyString => EmptyString
  end.

Fixpoint rev_string (s : string) : string :=
  match s with
  | EmptyString => EmptyString
  | String c t => rev_string t ++ str1 c
  end.

(** String.prototype.trim *)
Definition trim (s : string) : string :=
  rev_string (trim_start (rev_string (trim_start s))).

(** a || b on strings: the empty string is falsy. *)
Definition str_or (a b : string) : string :=
  match a with EmptyString => b | _ => a end.

(** Array.prototype.join *)
Fixpoint join (sep : string) (l : list string) : string :=
  match l with
  | [] => EmptyString
  | [x] => x
  | x :: l' => x ++ sep ++ join sep l'
  end.

(** s.split(sep) for a one-character separator. *)
Fixpoint split_on (c : ascii) (s : string) : list string :=
  match s with
  | EmptyString => [EmptyString]
  | String d t =>
      if Ascii.eqb c d then EmptyString :: split_on c t
      else match split_on c t with
           | [] => [str1 d]
           | w :: ws => String d w :: ws
           end
  end.

(** Number to string for the integers the script prints. *)
Definition z_to_string (z : Z) : string :=
  NilEmpty.string_of_int (Z.to_int z).

Definition nat_to_string (n : nat) : string := z_to_string (Z.of_nat n).

(** `${n}%` *)
Definition percent_string (z : Z) : string := z_to_string z ++ "%".

(* ------------------------------------------------------------------ *)
(** ** parseInt *)

Fixpoint digits_value (acc : Z) (s : string) : option Z * string :=
  match s with
  | String c t =>
      if is_digit c then digits_value (acc * 10 + digit_val c)%Z t
      else (Some acc, s)
  | EmptyString => (Some acc, s)
  end.

Definition hex_val (c : ascii) : option Z :=
  let n := nat_of_ascii c in
  if (48 <=? n) && (n <=? 57) then Some (Z.of_nat (n - 48))
  else if (97 <=? n) && (n <=? 102) then Some (Z.of_nat (n - 87))
  else if (65 <=? n) && (n <=? 70) then Some (Z.of_nat (n - 55))
  else None.

Fixpoint hex_value (acc : Z) (s : string) : Z :=
  match s with
  | String c t =>
      match hex_val c with
      | Some v => hex_value (acc * 16 + v)%Z t
      | None => acc
      end
  | EmptyString => acc
  end.

(** The digits of [s] read in base 10 (None when there is none). *)
Definition parse_decimal (s : string) : option Z :=
  match s with
  | String c _ => if is_digit c then fst (digits_value 0 s) else None
  | EmptyString => None
  end.

Definition parse_hex (s : string) : option Z :=
  match s with
  | String c _ =>
      match hex_val c with Some _ => Some (hex_value 0 s) | None => None end
  | EmptyString => None
  end.

(** parseInt(s) with no radix: leading white space, a sign, an optional
    0x prefix, then the longest run of digits; NaN is [None].  (Results
    beyond 2^53 are exact here, rounded by JavaScript.) *)
Definition parseInt (s : string) : option Z :=
  let s1 := trim_start s in
  let '(sign, s2) :=
    match s1 with
    | String c t =>
        if Ascii.eqb c "-"%char then ((-1)%Z, t)
        else if Ascii.eqb c "+"%char then (1%Z, t)
        else (1%Z, s1)
    | EmptyString => (1%Z, s1)
    end in
  let v :=
    match s2 with
    | String z (String x t) =>
        if Ascii.eqb z "0"%char && Ascii.eqb (lower_char x) "x"%char
        then parse_hex t else parse_decimal s2
    | _ => parse_decimal s2
    end in
  option_map (Z.mul sign) v.

(** parseInt(...) || 0 : NaN and 0 are both falsy. *)
Definition parse_or0 (s : string) : Z :=
  match parseInt s with Some z => z | None => 0%Z end.

(** s.replace(c, '') with a one-character string pattern: the first
    occurrence only. *)
Fixpoint remove_first (c : ascii) (s : string) : string :=
  match s with
  | EmptyString => EmptyString
  | String d t => if Ascii.eqb c d then t else String d (remove_first c t)
  end.

(* ------------------------------------------------------------------ *)
(** ** Upstream data *)

(** A JSON field as the code reads it: absent or falsy ([JUndef]), a
    string, an integer, or another truthy value together with its string
    conversion (an object, an array, [true]). *)
Inductive jsfield :=
| JUndef
| JStr (s : string)
| JNum (n : Z)
| JObj (as_string : string).

Definition truthy (f : jsfield) : bool :=
  match f with
  | JUndef => false
  | JStr s => negb (String.eqb s "")
  | JNum n => negb (Z.eqb n 0)
  | JObj _ => true
  end.

(** String(value), as used by [+] on a string. *)
Definition js_to_string (f : jsfield) : string :=
  match f with
  | JUndef => "undefined"
  | JStr s => s
  | JNum n => z_to_string n
  | JObj s => s
  end.

(** The result of a fetch: the call or the body decoding throws, the
    response is not ok, or the decoded body. *)
Inductive fetch_result (A : Type) :=
| FThrows
| FNotOk
| FOk (body : A).
Arguments FThrows {A}.
Arguments FNotOk {A}.
Arguments FOk {A} body.

(** One disturbance area of the NHC gtwo JSON. *)
Record area := mk_area {
  chance2day : jsfield;
  chance7day : jsfield;
  area_text : jsfield
}.

(** TropicalOutlook: { outlook, formation_chance } *)
Record outlook := mk_outlook {
  outlook_text : string;
  formation_chance : string
}.

(** The option monad: [None] is an exception thrown inside a [try]. *)
Definition obind {A B} (m : option A) (k : A -> option B) : option B :=
  match m with Some a => k a | None => None end.
Notation "x <- m ;; k" := (obind m (fun x => k))
  (at level 61, m at next level, right associativity).

(** [if (f) { parseInt(f.replace('%','')) || 0 }]: calling .replace on a
    truthy non-string throws. *)
Definition chance_value (f : jsfield) : option (option Z) :=
  if truthy f then
    match f with
    | JStr s => Some (Some (parse_or0 (remove_first "%"%char s)))
    | _ => None
    end
  else Some None.

Definition max_with (m : Z) (c : option Z) : Z :=
  match c with Some v => Z.max m v | None => m end.

(* ------------------------------------------------------------------ *)
(** ** getTropicalOutlook, src/update-weather.js (v1) *)

Definition json_default_v1 : string :=
  "The National Hurricane Center is monitoring the Atlantic basin for tropical development.".

(** The body of data.areas.forEach in v1: (maxChance2Day, maxChance7Day,
    outlookText). *)
Definition area_step_v1 (acc : Z * Z * string) (a : area) : option (Z * Z * string) :=
  let '(m2, m7, txt) := acc in
  c2 <- chance_value (chance2day a) ;;
  c7 <- chance_value (chance7day a) ;;
  let txt' := if truthy (area_text a)
              then txt ++ js_to_string (area_text a) ++ " " else txt in
  Some (max_with m2 c2, max_with m7 c7, txt').

Fixpoint fold_areas {S} (step : S -> area -> option S) (acc : S) (l : list area)
  : option S :=
  match l with
  | [] => Some acc
  | a :: l' => acc' <- step acc a ;; fold_areas step acc' l'
  end.

(** Method 1 of v1: the NHC JSON outlook; [None] moves on to the next
    source. *)
Definition json_src_v1 (r : fetch_result (option (list area))) : option outlook :=
  match r with
  | FOk (Some (a :: l)) =>
      match fold_areas area_step_v1 (0%Z, 0%Z, "") (a :: l) with
      | Some (m2, m7, txt) =>
          let fc := if (0 <? m7)%Z then percent_string m7
                    else if (0 <? m2)%Z then percent_string m2
                    else "0%" in
          Some (mk_outlook (str_or (trim txt) json_default_v1) fc)
      | None => None
      end
  | _ => None
  end.

(** Number of leading characters of [s] satisfying [f]. *)
Fixpoint count_while (f : ascii -> bool) (s : string) : nat :=
  match s with
  | String c t => if f c then S (count_while f t) else 0
  | EmptyString => 0
  end.

(** [^>]*> : the length up to and including the first '>'. *)
Fixpoint to_gt (s : string) : option nat :=
  match s with
  | String c t => if Ascii.eqb c ">"%char then Some 1 else option_map S (to_gt t)
  | EmptyString => None
  end.

Definition close_desc : string := "</description>".

(** (.*?)<\/description> with the /i flag: the shortest run of non line
    terminators followed by the closing tag; the length of both. *)
Fixpoint lazy_close (s : string) : option nat :=
  if starts_with_ci close_desc s then Some (String.length close_desc)
  else match s with
       | String c t => if is_line_term c then None else option_map S (lazy_close t)
       | EmptyString => None
       end.

(** A match of /<description[^>]*>(.*?)<\/description>/i at the start of
    [s]: its length. *)
Definition desc_match_at (s : string) : option nat :=
  if starts_with_ci "<description" s then
    let r := drop_n 12 s in
    match to_gt r with
    | Some n =>
        match lazy_close (drop_n n r) with
        | Some m => Some (12 + n + m)
        | None => None
        end
    | None => None
    end
  else None.

(** xmlText.match(/<description[^>]*>(.*?)<\/description>/gi): the
    matches left to right, scanning resumes after each match ([k] counts
    the characters of the current match still to skip). *)
Fixpoint desc_scan (k : nat) (s : string) : list string :=
  match s with
  | EmptyString => []
  | String c t =>
      match k with
      | S k' => desc_scan k' t
      | 0 =>
          match desc_match_at s with
          | Some n => take_n n s :: desc_scan (n - 1) t
          | None => desc_scan 0 t
          end
      end
  end.

(** s.replace(/<[^>]*>/g, '') *)
Fixpoint strip_tags_aux (k : nat) (s : string) : string :=
  match s with
  | EmptyString => EmptyString
  | String c t =>
      match k with
      | S k' => strip_tags_aux k' t
      | 0 =>
          if Ascii.eqb c "<"%char then
            match to_gt t with
            | Some n => strip_tags_aux n t
            | None => String c (strip_tags_aux 0 t)
            end
          else String c (strip_tags_aux 0 t)
      end
  end.
Definition strip_tags (s : string) : string := strip_tags_aux 0 s.

(** A match of /(\d+)\s*%/ at the start of [s]: its text. *)
Definition pct_match_at (s : string) : option string :=
  let d := count_while is_digit s in
  if d =? 0 then None
  else
    let w := count_while is_space (drop_n d s) in
    match drop_n (d + w) s with
    | String p _ => if Ascii.eqb p "%"%char then Some (take_n (d + w + 1) s) else None
    | EmptyString => None
    end.

(** cleanDesc.match(/(\d+)\s*%/g) *)
Fixpoint pct_scan (k : nat) (s : string) : list string :=
  match s with
  | EmptyString => []
  | String c t =>
      match k with
      | S k' => pct_scan k' t
      | 0 =>
          match pct_match_at s with
          | Some m => m :: pct_scan (String.length m - 1) t
          | None => pct_scan 0 t
          end
      end
  end.

Definition rss_default_v1 : string :=
  "The National Hurricane Center is monitoring disturbances in the Atlantic basin.".

(** One description of descMatch.forEach: (maxPercent, outlookText). *)
Definition rss_desc_step (acc : Z * string) (desc : string) : Z * string :=
  let clean := trim (strip_tags desc) in
  fold_left
    (fun '(mx, txt) m =>
       match parseInt (remove_first "%"%char m) with
       | Some num => if (mx <? num)%Z then (num, take_n 400 clean) else (mx, txt)
       | None => (mx, txt)
       end)
    (pct_scan 0 clean) acc.

(** Method 2 of v1: the NHC RSS feed. *)
Definition rss_src_v1 (r : fetch_result string) : option outlook :=
  match r with
  | FOk xml =>
      match desc_scan 0 xml with
      | [] => None
      | descs =>
          let '(mx, txt) := fold_left rss_desc_step descs (0%Z, "") in
          if (0 <? mx)%Z || negb (String.eqb txt "") then
            Some (mk_outlook (str_or txt rss_default_v1)
                    (if (0 <? mx)%Z then percent_string mx else "0%"))
          else None
      end
  | _ => None
  end.

(** storm.name || 'Unnamed' *)
Definition storm_name (f : jsfield) : string :=
  if truthy f then js_to_string f else "Unnamed".

(** The CurrentStorms.json source (v1 and v2): the names of
    data.activeStorms, [None] when the field is absent. *)
Definition storms_src (r : fetch_result (option (list jsfield))) : option outlook :=
  match r with
  | FOk (Some ((_ :: _) as storms)) =>
      Some (mk_outlook
              ("The National Hurricane Center is currently tracking "
               ++ nat_to_string (List.length storms) ++ " active system(s): "
               ++ join ", " (map storm_name storms)
               ++ ". Monitor official forecasts for the latest information.")
              "Active Systems")
  | _ => None
  end.

(** month >= 5 && month <= 10 (getMonth() is zero based). *)
Definition isHurricaneSeason (month : nat) : bool := (5 <=? month) && (month <=? 10).

Definition outside_season_text : string :=
  "Outside of peak hurricane season. No significant tropical activity expected in the Atlantic basin at this time.".

(** The terminal fallback of v1. *)
Definition season_fallback_v1 (month : nat) : outlook :=
  if isHurricaneSeason month then
    mk_outlook "Unable to retrieve current formation probabilities from NHC APIs. The National Hurricane Center continues to monitor the Atlantic basin. Visit nhc.noaa.gov for the most current tropical weather outlook."
               "Check NHC"
  else mk_outlook outside_season_text "0%".

(** getTropicalOutlook of v1; [month] is new Date().getMonth() at the
    fallback. *)
Definition getTropicalOutlook_v1 (month : nat)
    (r_json : fetch_result (option (list area)))
    (r_rss : fetch_result string)
    (r_storms : fetch_result (option (list jsfield))) : outlook :=
  match json_src_v1 r_json with
  | Some o => o
  | None =>
      match rss_src_v1 r_rss with
      | Some o => o
      | None =>
          match storms_src r_storms with
          | Some o => o
          | None => season_fallback_v1 month
          end
      end
  end.

(* ------------------------------------------------------------------ *)
(** ** getTropicalOutlook, src/unnamed/part_000 (v2): the JSON source and
    the terminal fallback *)

Definition area_step_v2 (acc : nat * Z * string) (a : area) : option (nat * Z * string) :=
  let '(idx, mx, txt) := acc in
  c7 <- chance_value (chance7day a) ;;
  c2 <- chance_value (chance2day a) ;;
  let txt' := if truthy (area_text a)
              then txt ++ "Disturbance " ++ nat_to_string (S idx) ++ ": "
                       ++ js_to_string (area_text a) ++ " "
              else txt in
  Some (S idx, max_with (max_with mx c7) c2, txt').

(** Method 1 of v2; [None] moves on to the next source. *)
Definition json_src_v2 (r : fetch_result (option (list area))) : option outlook :=
  match r with
  | FOk (Some (a :: l)) =>
      match fold_areas area_step_v2 (0, 0%Z, "") (a :: l) with
      | Some (count, mx, txt) =>
          if (0 <? mx)%Z then
            Some (mk_outlook
                    (str_or (trim txt)
                       ("The National Hurricane Center is monitoring "
                        ++ nat_to_string count
                        ++ " disturbance(s) in the Atlantic basin for potential tropical development."))
                    (percent_string mx))
          else None
      | None => None
      end
  | _ => None
  end.

Definition season_fallback_v2 (month : nat) : outlook :=
  if isHurricaneSeason month then
    mk_outlook "NHC data temporarily unavailable via automated systems. During hurricane season, formation chances can change rapidly. Visit nhc.noaa.gov for the most current tropical weather outlook and formation probabilities."
               "Visit NHC"
  else mk_outlook outside_season_text "0%".

(** Method 2 of v2, the NHC HTML page: the three global regular
    expressions and their exec loops. *)

(** A match of (\d+)\s*percent (/i) at the start of [s]: the length of
    the digit run and of the whole match.  Backtracking cannot help: with
    fewer digits a digit, with fewer spaces a space, would have to match
    the p of "percent". *)
Definition num_percent_at (s : string) : option (nat * nat) :=
  let d := count_while is_digit s in
  let w := count_while is_space (drop_n d s) in
  if negb (d =? 0) && starts_with_ci "percent" (drop_n (d + w) s)
  then Some (d, d + w + 7) else None.

(** .*?(\d+)\s*percent at the start of [s]: the shortest run of non line
    terminators after which the number matches; the length of that run,
    the digit run and the number's match length. *)
Fixpoint lazy_num_percent (s : string) : option (nat * nat * nat) :=
  match num_percent_at s with
  | Some (d, n) => Some (0, d, n)
  | None =>
      match s with
      | String c t =>
          if is_line_term c then None
          else option_map (fun '(k, d, n) => (S k, d, n)) (lazy_num_percent t)
      | EmptyString => None
      end
  end.

(** /formation.*?(\d+)\s*percent/gi at the start of [s]: the capture
    and the match length. *)
Definition formation_match_at (s : string) : option (string * nat) :=
  if starts_with_ci "formation" s then
    match lazy_num_percent (drop_n 9 s) with
    | Some (k, d, n) => Some (take_n d (drop_n (9 + k) s), 9 + k + n)
    | None => None
    end
  else None.

(** /disturbance\s*\d+.*?(\d+)\s*percent/gi at the start of [s].  \s*
    takes all the spaces and \d+ all the digits; when no number follows
    on the line, \d+ backtracks by one digit, so that the last digit of
    its run is the capture when the run itself is followed by
    \s*percent (a shorter \d+ fails the same way). *)
Definition disturbance_match_at (s : string) : option (string * nat) :=
  if starts_with_ci "disturbance" s then
    let w := count_while is_space (drop_n 11 s) in
    let r := drop_n (11 + w) s in
    let dd := count_while is_digit r in
    if dd =? 0 then None
    else
      match lazy_num_percent (drop_n dd r) with
      | Some (k, d, n) => Some (take_n d (drop_n (dd + k) r), 11 + w + dd + k + n)
      | None =>
          if 2 <=? dd then
            match num_percent_at (drop_n (dd - 1) r) with
            | Some (d, n) => Some (take_n d (drop_n (dd - 1) r), 11 + w + (dd - 1) + n)
            | None => None
            end
          else None
      end
  else None.

(** /(\d+)\s*percent/gi at the start of [s]: the capture and the match
    length. *)
Definition percentage_match_at (s : string) : option (string * nat) :=
  match num_percent_at s with
  | Some (d, n) => Some (take_n d s, n)
  | None => None
  end.

(** while ((match = pattern.exec(text)) !== null): the index and the
    result of each match, left to right; [lastIndex] moves to the end of
    each match ([k] counts the characters still to skip, [i] is the
    index of [s] in the text). *)
Fixpoint regex_scan {A} (m : string -> option (A * nat)) (k i : nat) (s : string)
  : list (nat * A) :=
  match s with
  | EmptyString => []
  | String _ t =>
      match k with
      | S k' => regex_scan m k' (S i) t
      | 0 =>
          match m s with
          | Some (a, len) => (i, a) :: regex_scan m (len - 1) (S i) t
          | None => regex_scan m 0 (S i) t
          end
      end
  end.

Definition html_default_v2 : string :=
  "The National Hurricane Center reports tropical development chances in the Atlantic basin.".

(** One match of patterns.forEach: (maxPercentage, foundText). *)
Definition html_step_v2 (html : string) (acc : Z * string) (m : nat * string) : Z * string :=
  let '(mx, txt) := acc in
  let '(index, cap) := m in
  match parseInt cap with
  | Some p =>
      if (mx <? p)%Z then
        let startIndex := index - 200 in
        let endIndex := Nat.min (String.length html) (index + 200) in
        (p, trim (strip_tags (take_n (endIndex - startIndex) (drop_n startIndex html))))
      else (mx, txt)
  | None => (mx, txt)
  end.

(** Method 2 of v2: the NHC HTML outlook page. *)
Definition html_src_v2 (r : fetch_result string) : option outlook :=
  match r with
  | FOk html =>
      let matches := (regex_scan formation_match_at 0 0 html
                      ++ regex_scan disturbance_match_at 0 0 html
                      ++ regex_scan percentage_match_at 0 0 html)%list in
      let '(mx, txt) := fold_left (html_step_v2 html) matches (0%Z, "") in
      if (0 <? mx)%Z then Some (mk_outlook (str_or txt html_default_v2) (percent_string mx))
      else None
  | _ => None
  end.

(** Method 3 of v2, the NHC RSS feed. *)

(** [\s\S]*?<\/p> with the /i flag: the shortest run of any characters
    followed by [p]; the length of both. *)
Fixpoint lazy_any_close (p s : string) : option nat :=
  if starts_with_ci p s then Some (String.length p)
  else match s with
       | String _ t => option_map S (lazy_any_close p t)
       | EmptyString => None
       end.

(** /<item>[\s\S]*?<\/item>/gi at the start of [s]: the matched text and
    its length. *)
Definition item_match_at (s : string) : option (string * nat) :=
  if starts_with_ci "<item>" s then
    match lazy_any_close "</item>" (drop_n 6 s) with
    | Some n => Some (take_n (6 + n) s, 6 + n)
    | None => None
    end
  else None.

(** The capture of /<description[^>]*>(.*?)<\/description>/i at the
    start of [s]. *)
Definition desc_capture_at (s : string) : option string :=
  if starts_with_ci "<description" s then
    let r := drop_n 12 s in
    match to_gt r with
    | Some n =>
        match lazy_close (drop_n n r) with
        | Some m => Some (take_n (m - String.length close_desc) (drop_n (12 + n) s))
        | None => None
        end
    | None => None
    end
  else None.

(** regex.exec(s) without the g flag: the first match. *)
Fixpoint first_match {A} (m : string -> option A) (s : string) : option A :=
  match m s with
  | Some a => Some a
  | None =>
      match s with
      | String _ t => first_match m t
      | EmptyString => None
      end
  end.

(** s.replace(/\D/g, '') *)
Fixpoint keep_digits (s : string) : string :=
  match s with
  | EmptyString => EmptyString
  | String c t => if is_digit c then String c (keep_digits t) else keep_digits t
  end.

(** /(\d+)\s*percent/gi at the start of [s], for String.prototype.match:
    the matched text and its length. *)
Definition percent_text_at (s : string) : option (string * nat) :=
  match num_percent_at s with
  | Some (_, n) => Some (take_n n s, n)
  | None => None
  end.

Definition rss_default_v2 : string :=
  "The National Hurricane Center is monitoring tropical development in the Atlantic basin.".

(** One item of the while loop of method 3: (maxPercentage, outlookText). *)
Definition rss_item_step_v2 (acc : Z * string) (item : string) : Z * string :=
  if includes (to_lower item) "tropical" || includes (to_lower item) "outlook" then
    match first_match desc_capture_at item with
    | Some cap =>
        let description := trim (strip_tags cap) in
        fold_left
          (fun '(mx, txt) pm =>
             match parseInt (keep_digits pm) with
             | Some num => if (mx <? num)%Z then (num, take_n 400 description) else (mx, txt)
             | None => (mx, txt)
             end)
          (map snd (regex_scan percent_text_at 0 0 description)) acc
    | None => acc
    end
  else acc.

(** Method 3 of v2: the NHC RSS feed. *)
Definition rss_src_v2 (r : fetch_result string) : option outlook :=
  match r with
  | FOk xml =>
      let '(mx, txt) :=
        fold_left rss_item_step_v2 (map snd (regex_scan item_match_at 0 0 xml)) (0%Z, "") in
      if (0 <? mx)%Z then Some (mk_outlook (str_or txt rss_default_v2) (percent_string mx))
      else None
  | _ => None
  end.

(** getTropicalOutlook of v2: the JSON outlook, the HTML page, the RSS
    feed, CurrentStorms.json, then the fallback by [month] (every source
    catches its own exceptions, so the outer catch is not reached). *)
Definition getTropicalOutlook_v2 (month : nat)
    (r_json : fetch_result (option (list area))) (r_html : fetch_result string)
    (r_rss : fetch_result string) (r_storms : fetch_result (option (list jsfield)))
  : outlook :=
  match json_src_v2 r_json with
  | Some o => o
  | None =>
      match html_src_v2 r_html with
      | Some o => o
      | None =>
          match rss_src_v2 r_rss with
          | Some o => o
          | None =>
              match storms_src r_storms with
              | Some o => o
              | None => season_fallback_v2 month
              end
          end
      end
  end.

(* ------------------------------------------------------------------ *)
(** ** Alerts *)

(** alert.properties: event, severity, expires (the timestamp new Date
    gives for it, [None] for an Invalid Date), areaDesc. *)
Record alert := mk_alert {
  event : string;
  severity : string;
  expires : option Z;
  areaDesc : string
}.

(** new Date(alert.properties.expires) > new Date(), with [now] the clock
    reading taken for this alert. *)
Definition is_active (now : Z) (a : alert) : bool :=
  match expires a with Some e => (now <? e)%Z | None => false end.

(** alerts.filter(...): the [i]-th call of the callback reads the clock
    as [clock i]. *)
Fixpoint active_alerts (clock : nat -> Z) (i : nat) (l : list alert) : list alert :=
  match l with
  | [] => []
  | a :: l' =>
      if is_active (clock i) a then a :: active_alerts clock (S i) l'
      else active_alerts clock (S i) l'
  end.

(** [...new Set(l)]: first occurrences, in order. *)
Definition set_values (l : list string) : list string :=
  fold_left (fun acc x => if existsb (String.eqb x) acc then acc else (acc ++ [x])%list) l [].

(* ------------------------------------------------------------------ *)
(** ** getTropicalOutlook, src/unnamed/part_001 (v3) *)

(** The first match of /(\d+)\s*percent/i in [s]: its digits. *)
Fixpoint percent_word_match (s : string) : option string :=
  let d := count_while is_digit s in
  let rest := drop_n d s in
  if negb (d =? 0)
     && starts_with_ci "percent" (drop_n (count_while is_space rest) rest)
  then Some (take_n d s)
  else match s with
       | String _ t => percent_word_match t
       | EmptyString => None
       end.

Definition includes_any (line : string) (words : list string) : bool :=
  existsb (includes line) words.

(** lines.slice(start, stop) *)
Definition slice {A} (start stop : nat) (l : list A) : list A :=
  firstn (stop - start) (skipn start l).

(** The state of the loop of parseNWSTropicalOutlook: (outlookText,
    maxFormationChance). *)
Definition nws_line_step (lines : list string) (acc : string * Z) (i : nat)
  : string * Z :=
  let '(txt, mx) := acc in
  let line := to_lower (nth i lines "") in
  if includes_any line ["disturbance"; "tropical"; "development"] then
    let ctx := trim (join " " (slice i (Nat.min (i + 3) (List.length lines)) lines)) in
    let '(txt1, mx1) :=
      match percent_word_match ctx with
      | Some ds =>
          match parseInt ds with
          | Some p => if (mx <? p)%Z then (take_n 300 ctx ++ "...", p) else (txt, mx)
          | None => (txt, mx)
          end
      | None => (txt, mx)
      end in
    if String.eqb txt1 "" && (50 <? String.length ctx)
    then (take_n 300 ctx ++ "...", mx1) else (txt1, mx1)
  else (txt, mx).

(** parseNWSTropicalOutlook(productText); a productText that is not a
    string ([None]) makes .split throw, and the catch returns null. *)
Definition parseNWSTropicalOutlook (productText : option string) : option outlook :=
  match productText with
  | None => None
  | Some text =>
      let lines := split_on (chr 10) text in
      let '(txt, mx) := fold_left (nws_line_step lines) (seq 0 (List.length lines)) ("", 0%Z) in
      if negb (String.eqb txt "") || (0 <? mx)%Z then
        Some (mk_outlook
                (str_or txt "The National Weather Service is monitoring tropical activity in the Atlantic basin.")
                (if (0 <? mx)%Z then percent_string mx else "Low"))
      else None
  end.

(** processTropicalAlerts(alerts) *)
Definition processTropicalAlerts (clock : nat -> Z) (alerts : list alert) : option outlook :=
  match active_alerts clock 0 alerts with
  | [] => None
  | act =>
      Some (mk_outlook
              ("Active tropical weather alerts: " ++ join ", " (map event act)
               ++ " affecting " ++ join ", " (set_values (map areaDesc act))
               ++ ". Monitor National Weather Service for updates and follow all evacuation orders.")
              "Active System")
  end.

(** The loop of the two extractors: the first keyword line whose context
    is long enough ([break]). *)
Fixpoint first_context (lines : list string) (words : list string)
    (before after min_len cut : nat) (idx : list nat) : string :=
  match idx with
  | [] => ""
  | i :: idx' =>
      if includes_any (to_lower (nth i lines "")) words then
        let ctx := trim (join " " (slice (i - before)
                                         (Nat.min (List.length lines) (i + after)) lines)) in
        if min_len <? String.length ctx then take_n cut ctx ++ "..."
        else first_context lines words before after min_len cut idx'
      else first_context lines words before after min_len cut idx'
  end.

(** extractTropicalFromAFD(productText) *)
Definition extractTropicalFromAFD (productText : option string) : option outlook :=
  match productText with
  | None => None
  | Some text =>
      let lines := split_on (chr 10) text in
      let content := first_context lines ["tropical"; "hurricane"; "depression"; "disturbance"]
                       2 4 100 400 (seq 0 (List.length lines)) in
      if String.eqb content "" then None
      else Some (mk_outlook content
                   (match percent_word_match content with
                    | Some ds => ds ++ "%"
                    | None => "Monitor"
                    end))
  end.

(** extractTropicalFromMarine(productText) *)
Definition extractTropicalFromMarine (productText : option string) : option outlook :=
  match productText with
  | None => None
  | Some text =>
      let lines := split_on (chr 10) text in
      let content := first_context lines ["tropical"; "cyclone"; "storm"]
                       1 3 80 300 (seq 0 (List.length lines)) in
      if String.eqb content "" then None
      else Some (mk_outlook content "See Marine Forecast")
  end.

(** A product list source of api.weather.gov: the list fetch or a body
    throws, the list is not ok, data['@graph'] is absent or empty, the
    product fetch is not ok, or the productText of the latest product. *)
Inductive product_src :=
| PThrows
| PListNotOk
| PListEmpty
| PProductNotOk
| PProduct (productText : option string).

(** The outcome of one method of v3: go on to the next method, or
    [return] a value, [None] standing for null. *)
Inductive step_result :=
| Next
| Return (v : option outlook).

(** Method 1: return parseNWSTropicalOutlook(productData.productText). *)
Definition method1_v3 (r : product_src) : step_result :=
  match r with
  | PProduct t => Return (parseNWSTropicalOutlook t)
  | _ => Next
  end.

(** Method 2: return processTropicalAlerts(data.features) when there are
    features. *)
Definition method2_v3 (clock : nat -> Z) (r : fetch_result (list alert)) : step_result :=
  match r with
  | FOk ((_ :: _) as features) => Return (processTropicalAlerts clock features)
  | _ => Next
  end.

(** Methods 3 and 4: [if (tropicalInfo) return tropicalInfo;]. *)
Definition method_checked (extract : option string -> option outlook) (r : product_src)
  : step_result :=
  match r with
  | PProduct t =>
      match extract t with Some o => Return (Some o) | None => Next end
  | _ => Next
  end.

Definition season_fallback_v3 (month : nat) : outlook :=
  if isHurricaneSeason month then
    mk_outlook "National Weather Service tropical data temporarily unavailable via automated systems. During hurricane season, conditions can change rapidly and tropical development is possible."
               "Monitor NWS"
  else mk_outlook outside_season_text "0%".

(** getTropicalOutlook of v3; the result is the returned value, [None]
    being null. *)
Definition getTropicalOutlook_v3 (month : nat) (clock : nat -> Z)
    (r_two : product_src) (r_alerts : fetch_result (list alert))
    (r_afd : product_src) (r_hsp : product_src) : option outlook :=
  match method1_v3 r_two with
  | Return v => v
  | Next =>
      match method2_v3 clock r_alerts with
      | Return v => v
      | Next =>
          match method_checked extractTropicalFromAFD r_afd with
          | Return v => v
          | Next =>
              match method_checked extractTropicalFromMarine r_hsp with
              | Return v => v
              | Next => Some (season_fallback_v3 month)
              end
          end
      end
  end.

(* ------------------------------------------------------------------ *)
(** ** ConditionComposer: processAlerts and its fallbacks (all versions) *)

(** getSeasonalConditions(state, isHotSeason) *)
Definition getSeasonalConditions (state : string) (isHotSeason : bool) : string :=
  if isHotSeason then
    "Monitor for heat stress during outdoor activities. Stay hydrated and seek air conditioning during peak heating hours. "
  else "Typical seasonal weather patterns expected. Monitor for changing conditions. ".

Definition is_warning (a : alert) : bool :=
  String.eqb (severity a) "Severe" || String.eqb (severity a) "Extreme"
  || includes (event a) "Warning".
Definition is_watch (a : alert) : bool := includes (event a) "Watch".
Definition is_advisory (a : alert) : bool :=
  String.eqb (severity a) "Moderate" || includes (event a) "Advisory".

(** The three groups of processAlerts, filtered from activeAlerts. *)
Definition warnings_of (clock : nat -> Z) (alerts : list alert) : list alert :=
  filter is_warning (active_alerts clock 0 alerts).
Definition watches_of (clock : nat -> Z) (alerts : list alert) : list alert :=
  filter is_watch (active_alerts clock 0 alerts).
Definition advisories_of (clock : nat -> Z) (alerts : list alert) : list alert :=
  filter is_advisory (active_alerts clock 0 alerts).

Definition group_sentence (prefix label : string) (g : list alert) : string :=
  match g with
  | [] => ""
  | _ => prefix ++ join ", " (map event g) ++ " " ++ label ++ " in effect. "
  end.

(** processAlerts(state, alerts, isHotSeason) *)
Definition processAlerts (clock : nat -> Z) (state : string) (alerts : list alert)
    (isHotSeason : bool) : string :=
  let condition :=
    match active_alerts clock 0 alerts with
    | [] => ""
    | _ => group_sentence "Active " "WARNINGS" (warnings_of clock alerts)
           ++ group_sentence "" "WATCHES" (watches_of clock alerts)
           ++ group_sentence "" "ADVISORIES" (advisories_of clock alerts)
    end in
  let condition := condition ++ getSeasonalConditions state isHotSeason in
  str_or condition
    ("No significant weather hazards reported for " ++ state ++ " at this time.").

Definition hot_opening : string :=
  "Hot and humid conditions with ADVISORIES for heat index values near or above 100°F. ".

(** generateFallbackConditions(state, isHotSeason) *)
Definition generateFallbackConditions (state : string) (isHotSeason : bool) : string :=
  if isHotSeason then
    hot_opening ++
    (if String.eqb state "Florida" then
       "WATCHES for heavy rainfall and potential flash flooding. Scattered to numerous thunderstorms with frequent lightning and locally heavy rainfall. "
     else if String.eqb state "Mississippi" || String.eqb state "Alabama" then
       "Isolated to scattered thunderstorms possible with frequent lightning and brief heavy downpours. Monitor for heat-related illnesses. "
     else if String.eqb state "Georgia" || String.eqb state "South Carolina" then
       "Scattered afternoon thunderstorms with dangerous lightning and locally heavy rainfall. "
     else if String.eqb state "Tennessee" || String.eqb state "North Carolina" then
       "ADVISORIES for scattered thunderstorms with lightning and brief heavy rainfall. "
     else if String.eqb state "U.S. Virgin Islands" then
       "ADVISORIES for isolated showers and thunderstorms with dangerous lightning. "
     else "")
  else
    "Seasonal temperatures expected for " ++ state ++ ". " ++
    (if String.eqb state "Florida" || String.eqb state "U.S. Virgin Islands" then
       "Mild temperatures with occasional shower activity. "
     else "Monitor for potential winter weather impacts and changing conditions. ").

(** generateStateConditions: the alerts request fails or is not ok (the
    fallback), or returns data.features ([None] when absent: []). *)
Definition generateStateConditions (clock : nat -> Z) (state : string) (isHotSeason : bool)
    (r : fetch_result (option (list alert))) : string :=
  match r with
  | FOk features =>
      processAlerts clock state (match features with Some l => l | None => [] end) isHotSeason
  | _ => generateFallbackConditions state isHotSeason
  end.

(** today.getMonth() >= 4 && today.getMonth() <= 9 *)
Definition isHotSeason (month : nat) : bool := (4 <=? month) && (month <=? 9).

(** WEATHER_OFFICES, in insertion order. *)
Definition WEATHER_OFFICES : list (string * string) :=
  [("Tennessee", "Nashville, TN"); ("Mississippi", "Jackson, MS");
   ("Alabama", "Birmingham, AL"); ("Georgia", "Atlanta, GA");
   ("Florida", "Miami, FL"); ("North Carolina", "Raleigh, NC");
   ("South Carolina", "Charleston, SC"); ("U.S. Virgin Islands", "San Juan, PR")].

Definition state_names : list string := map fst WEATHER_OFFICES.

(** The conditions object: one entry per state key, and tropical. *)
Record weather_data := mk_weather_data {
  wd_state : string -> option string;
  wd_tropical : option outlook
}.

(** fetchWeatherConditions: each state is fetched with its own response
    and clock readings; [tropical] is what getTropicalOutlook returned. *)
Definition fetchWeatherConditions (month : nat) (clock : string -> nat -> Z)
    (resp : string -> fetch_result (option (list alert)))
    (tropical : option outlook) : weather_data :=
  mk_weather_data
    (fun st => if existsb (String.eqb st) state_names
               then Some (generateStateConditions (clock st) st (isHotSeason month) (resp st))
               else None)
    tropical.

(* ------------------------------------------------------------------ *)
(** ** ReportRenderer: generateReport *)

(** s.replace(/p/g, r) for a literal pattern [p] and a replacement without
    '$': the left-to-right scan, resuming after each match ([k] counts the
    characters of the current match still to skip). *)
Fixpoint replace_all_aux (p r : string) (k : nat) (s : string) : string :=
  match s with
  | EmptyString => EmptyString
  | String c t =>
      match k with
      | S k' => replace_all_aux p r k' t
      | 0 =>
          if starts_with p s then r ++ replace_all_aux p r (String.length p - 1) t
          else String c (replace_all_aux p r 0 t)
      end
  end.
Definition replace_all (p r s : string) : string := replace_all_aux p r 0 s.

Definition span_class (cls body : string) : string :=
  "<span class=" ++ dq ++ cls ++ dq ++ ">" ++ body ++ "</span>".
Definition strong (body : string) : string := "<strong>" ++ body ++ "</strong>".

(** The substitutions of generateReport, in source order. *)
Definition highlight_rules : list (string * string) :=
  [("WARNINGS", span_class "warning" "WARNINGS");
   ("WATCHES", span_class "watch" "WATCHES");
   ("ADVISORIES", span_class "advisory" "ADVISORIES");
   ("frequent lightning", strong "frequent lightning");
   ("dangerous lightning", strong "dangerous lightning");
   ("cloud-to-ground lightning", strong "cloud-to-ground lightning")].

(** The chain weatherData[state].replace(...).replace(...)... *)
Definition highlight (s : string) : string :=
  replace_all "cloud-to-ground lightning" (strong "cloud-to-ground lightning")
  (replace_all "dangerous lightning" (strong "dangerous lightning")
  (replace_all "frequent lightning" (strong "frequent lightning")
  (replace_all "ADVISORIES" (span_class "advisory" "ADVISORIES")
  (replace_all "WATCHES" (span_class "watch" "WATCHES")
  (replace_all "WARNINGS" (span_class "warning" "WARNINGS") s))))).

(** The substitutions applied in the order of a list. *)
Definition apply_rules (l : list (string * string)) (s : string) : string :=
  fold_left (fun acc pr => replace_all (fst pr) (snd pr) acc) l s.

Definition div_class (cls body : string) : string :=
  "<div class=" ++ dq ++ cls ++ dq ++ ">" ++ body ++ "</div>".

(** The block appended for one state. *)
Definition state_line (state cond : string) : string :=
  nl ++ "                <div class=" ++ dq ++ "state-report" ++ dq ++ ">"
  ++ nl ++ "                    " ++ span_class "state-name" (state ++ ":") ++ " "
  ++ nl ++ "                    " ++ span_class "state-conditions" cond
  ++ nl ++ "                </div>"
  ++ nl ++ "            ".

(** Object.keys(WEATHER_OFFICES).forEach(...): a state is rendered when
    its entry is truthy. *)
Definition state_section (wd : weather_data) : string :=
  String.concat ""
    (map (fun st => match wd_state wd st with
                    | Some c => if String.eqb c "" then "" else state_line st (highlight c)
                    | None => ""
                    end) state_names).

Definition report_header (wd : weather_data) (checkTime startDate endDate : string) : string :=
  nl ++ "        " ++ div_class "weather-check-time"
          ("Weather.gov map checked at " ++ checkTime ++ " EDT. NWS office verification completed for all SECAR state offices.")
  ++ nl ++ "        "
  ++ nl ++ "        " ++ div_class "date-range" (startDate ++ " – " ++ endDate)
  ++ nl ++ "        "
  ++ nl ++ "        <div class=" ++ dq ++ "tropical-outlook" ++ dq ++ ">"
  ++ nl ++ "            <h3>Tropical Weather Outlook</h3>"
  ++ nl ++ "            <p>"
        ++ str_or (match wd_tropical wd with Some o => outlook_text o | None => "" end)
                  "Tropical outlook not available." ++ "</p>"
  ++ nl ++ "            <div class=" ++ dq ++ "formation-chance" ++ dq ++ ">"
  ++ nl ++ "                <div class=" ++ dq ++ "formation-badge" ++ dq ++ ">"
  ++ nl ++ "                    Formation Chance: "
        ++ span_class "formation-percentage"
             (str_or (match wd_tropical wd with Some o => formation_chance o | None => "" end) "N/A")
  ++ nl ++ "                </div>"
  ++ nl ++ "            </div>"
  ++ nl ++ "        </div>"
  ++ nl ++ "        "
  ++ nl ++ "        " ++ div_class "section-title" "Severe Weather Threats (5-Day Outlook)"
  ++ nl ++ "    ".

Definition wwa : string :=
  span_class "warning" "WARNINGS" ++ ", " ++ span_class "watch" "WATCHES" ++ ", and "
  ++ span_class "advisory" "ADVISORIES".

Definition report_footer : string :=
  nl ++ "        <div class=" ++ dq ++ "recommendations" ++ dq ++ ">"
  ++ nl ++ "            " ++ div_class "section-title" "Recommendations"
  ++ nl ++ "            "
  ++ nl ++ "            <h4>Immediate Actions</h4>"
  ++ nl ++ "            <ul>"
  ++ nl ++ "                <li>Follow all local " ++ wwa ++ " for heat, thunderstorms, and flooding.</li>"
  ++ nl ++ "                <li>Monitor local conditions for rapidly developing thunderstorms, especially during peak heating hours.</li>"
  ++ nl ++ "                <li>Practice lightning safety: move indoors immediately when thunder is heard; avoid open fields, water, and tall objects.</li>"
  ++ nl ++ "                <li>Never drive through flooded roadways—Turn Around, Don't Drown.</li>"
  ++ nl ++ "                <li>Stay hydrated and limit outdoor activity during periods of excessive heat.</li>"
  ++ nl ++ "            </ul>"
  ++ nl ++ "            "
  ++ nl ++ "            <h4>5-Day Monitoring</h4>"
  ++ nl ++ "            <ul>"
  ++ nl ++ "                <li>Monitor NWS local offices for updated " ++ wwa ++ ".</li>"
  ++ nl ++ "                <li>Track NHC Tropical Weather Outlook updates for any changes in tropical development probability.</li>"
  ++ nl ++ "                <li>Monitor river and stream levels in flood-prone areas, especially after heavy rainfall.</li>"
  ++ nl ++ "                <li>Remain alert for rapidly changing weather conditions, especially during holiday events and outdoor gatherings.</li>"
  ++ nl ++ "            </ul>"
  ++ nl ++ "        </div>"
  ++ nl ++ "        "
  ++ nl ++ "        " ++ div_class "sources" "Sources: NWS local offices, National Hurricane Center, NOAA."
  ++ nl ++ "    ".

(** generateReport(weatherData) of v1; [checkTime] is the
    toLocaleTimeString text and the dates the formatDate texts. *)
Definition generateReport (wd : weather_data) (checkTime startDate endDate : string) : string :=
  report_header wd checkTime startDate endDate ++ state_section wd ++ report_footer.

(* ------------------------------------------------------------------ *)
(** ** FilePublisher: updateHtmlFile *)

Definition report_open : string :=
  "<div id=" ++ dq ++ "reportOutput" ++ dq ++ " class=" ++ dq ++ "report-text" ++ dq ++ ">".
Definition div_close : string := "</div>".

(** The first occurrence of [pat] in [s]: the text before it and the text
    after it. *)
Fixpoint split_first (pat s : string) : option (string * string) :=
  if starts_with pat s then Some (EmptyString, drop_n (String.length pat) s)
  else match s with
       | EmptyString => None
       | String c t =>
           match split_first pat t with
           | Some (a, b) => Some (String c a, b)
           | None => None
           end
       end.

(** The match of /<div id="reportOutput" class="report-text">[\s\S]*?<\/div>/:
    the first opening tag and the first </div> after it; (text before,
    inner text, text after). *)
Definition placeholder_match (tpl : string) : option (string * string * string) :=
  match split_first report_open tpl with
  | Some (pre, rest) =>
      match split_first div_close rest with
      | Some (inner, post) => Some (pre, inner, post)
      | None => None
      end
  | None => None
  end.

(** GetSubstitution: the '$' patterns of a replacement string for a
    regular expression without capture groups. *)
Fixpoint get_substitution (matched before after : string) (repl : string) : string :=
  match repl with
  | String d ((String e t) as rest) =>
      if Ascii.eqb d "$"%char then
        if Ascii.eqb e "$"%char then "$" ++ get_substitution matched before after t
        else if Ascii.eqb e "&"%char then matched ++ get_substitution matched before after t
        else if Ascii.eqb e "`"%char then before ++ get_substitution matched before after t
        else if Ascii.eqb e "'"%char then after ++ get_substitution matched before after t
        else String d (get_substitution matched before after rest)
      else String d (get_substitution matched before after rest)
  | _ => repl
  end.

(** htmlTemplate.replace(placeholder regex, `<div ...>${reportHtml}</div>`) *)
Definition replace_placeholder (tpl reportHtml : string) : string :=
  match placeholder_match tpl with
  | Some (pre, inner, post) =>
      pre ++ get_substitution (report_open ++ inner ++ div_close) pre post
               (report_open ++ reportHtml ++ div_close)
      ++ post
  | None => tpl
  end.

(** .replace(/Loading\.\.\./, `Last Updated: ${updateTime}`) *)
Definition replace_loading (s updateTime : string) : string :=
  match split_first "Loading..." s with
  | Some (pre, post) =>
      pre ++ get_substitution "Loading..." pre post ("Last Updated: " ++ updateTime) ++ post
  | None => s
  end.

(** Re-extracting the placeholder's inner content with the same pattern. *)
Definition extract_placeholder (html : string) : option string :=
  match placeholder_match html with
  | Some (_, inner, _) => Some inner
  | None => None
  end.

(** What the process does: write the file, or exit with status 1. *)
Inductive publish_outcome :=
| Written (contents : string)
| ExitFailure.

(** updateHtmlFile of v1: [reportHtml] is generateReport's text ([None]:
    fetchWeatherConditions threw), [template] the file read ([None]: the
    read threw), [write_ok] whether writeFileSync succeeded. *)
Definition updateHtmlFile_v1 (reportHtml : option string) (updateTime : string)
    (template : option string) (write_ok : bool) : publish_outcome :=
  match reportHtml, template with
  | Some r, Some tpl =>
      if write_ok then Written (replace_loading (replace_placeholder tpl r) updateTime)
      else ExitFailure
  | _, _ => ExitFailure
  end.

(** updateHtmlFile of v2 and v3 (no Loading... substitution). *)
Definition updateHtmlFile_v2 (reportHtml : option string) (template : option string)
    (write_ok : bool) : publish_outcome :=
  match reportHtml, template with
  | Some r, Some tpl => if write_ok then Written (replace_placeholder tpl r) else ExitFailure
  | _, _ => ExitFailure
  end.

(* ------------------------------------------------------------------ *)
(** ** Auxiliary predicates of the statements *)

Fixpoint has_digit (s : string) : bool :=
  match s with
  | EmptyString => false
  | String c t => is_digit c || has_digit t
  end.

(** A formation-chance token that is neither numeric nor a 0% claim. *)
Definition descriptive_token (s : string) : Prop :=
  has_digit s = false /\ s <> "0%".

(** The value a probability field contributes to a maximum. *)
Definition field_val (f : jsfield) : Z :=
  match f with
  | JStr s => if truthy f then parse_or0 (remove_first "%"%char s) else 0%Z
  | _ => 0%Z
  end.

(** A probability field on which .replace does not throw. *)
Definition chance_ok (f : jsfield) : bool :=
  match f with
  | JUndef | JStr _ => true
  | JNum n => Z.eqb n 0
  | JObj _ => false
  end.

Definition area_ok (a : area) : bool := chance_ok (chance2day a) && chance_ok (chance7day a).

(** The maxima over all areas, written as folds over the list. *)
Definition max2_of (areas : list area) : Z :=
  fold_right (fun a m => Z.max (field_val (chance2day a)) m) 0%Z areas.
Definition max7_of (areas : list area) : Z :=
  fold_right (fun a m => Z.max (field_val (chance7day a)) m) 0%Z areas.

(** Every suffix of [x] is incompatible with [q] (neither is a prefix of
    the other): no match of [q] can start inside [x], whatever follows. *)
Fixpoint blocks (x q : string) : bool :=
  match x with
  | EmptyString => true
  | String _ t => negb (starts_with q x || starts_with x q) && blocks t q
  end.

(** No match of [q] can start inside a text and run into a following [w]. *)
Definition straddle_free (q w : string) : bool := blocks (drop_n 1 q) w.

(** The number of positions at which [p] occurs in [s]. *)
Fixpoint count_occurrences (p s : string) : nat :=
  match s with
  | EmptyString => 0
  | String _ t => (if starts_with p s then 1 else 0) + count_occurrences p t
  end.

(** Two substitutions (pattern, replacement) neither of which can create,
    destroy or overlap a match of the other. *)
Definition independent (a b : string * string) : bool :=
  let '(p, rp) := a in let '(q, rq) := b in
  negb (String.eqb p "") && negb (String.eqb q "")
  && blocks rp q && blocks rq p && blocks p q && blocks q p
  && straddle_free q rp && straddle_free p rq.

Definition rules_commute (l : list (string * string)) : bool :=
  forallb (fun a => forallb (fun b =>
    (String.eqb (fst a) (fst b) && String.eqb (snd a) (snd b)) || independent a b) l) l.

(** The state (maxPercent, outlookText) of the RSS loop of v1: untouched,
    or a positive maximum with the excerpt of one of the descriptions [D]. *)
Definition rss_inv (D : list string) (acc : Z * string) : Prop :=
  (fst acc = 0%Z /\ snd acc = "")
  \/ ((0 < fst acc)%Z /\ exists d, In d D /\ snd acc = take_n 400 (trim (strip_tags d))
                              /\ snd acc <> "").

(** The formation chances getTropicalOutlook of v1 and of v2 can return. *)
Definition v1_chance_ok (fc : string) : Prop :=
  fc = "0%" \/ fc = "Active Systems" \/ fc = "Check NHC"
  \/ exists n, (0 < n)%Z /\ fc = percent_string n.

Definition v2_chance_ok (fc : string) : Prop :=
  fc = "0%" \/ fc = "Active Systems" \/ fc = "Visit NHC"
  \/ exists n, (0 < n)%Z /\ fc = percent_string n.

(** Sample inputs of the statements. *)
Definition C1_areas : list area :=
  [mk_area JUndef (JStr "40%") JUndef; mk_area (JStr "70%") JUndef JUndef].

Definition C3_template : string :=
  "<html>" ++ report_open ++ "Loading..." ++ div_close ++ "</html>".

(* ------------------------------------------------------------------ *)
(** * Proofs *)

Lemma starts_with_app (a b : string) : starts_with a (a ++ b) = true.
Proof.
  induction a as [|c a IH]; simpl; [reflexivity|].
  rewrite Ascii.eqb_refl, IH. reflexivity.
Qed.

Lemma starts_with_app_l (x y z : string) :
  starts_with (x ++ y) (x ++ z) = starts_with y z.
Proof.
  induction x as [|c x IH]; simpl; [reflexivity|].
  rewrite Ascii.eqb_refl. exact IH.
Qed.

Lemma append_assoc_str (a b c : string) : a ++ b ++ c = (a ++ b) ++ c.
Proof. induction a as [|x a IH]; simpl; [reflexivity|]. now rewrite IH. Qed.

Lemma append_nil_str (a : string) : a ++ "" = a.
Proof. induction a as [|x a IH]; simpl; [reflexivity|]. now rewrite IH. Qed.

Lemma append_nonempty_r (a b : string) : b <> "" -> a ++ b <> "".
Proof. destruct a; simpl; [auto|discriminate]. Qed.

Lemma str_or_nonempty (a b : string) : a <> "" -> str_or a b = a.
Proof. destruct a; [congruence|reflexivity]. Qed.

Lemma getSeasonalConditions_nonempty (st : string) (hot : bool) :
  getSeasonalConditions st hot <> "".
Proof. destruct hot; discriminate. Qed.

(** processAlerts always returns its alert sentences followed by the
    seasonal sentence: the [||] default is never taken. *)
Lemma processAlerts_shape (clock : nat -> Z) (st : string) (alerts : list alert) (hot : bool) :
  exists pre, processAlerts clock st alerts hot = pre ++ getSeasonalConditions st hot.
Proof.
  unfold processAlerts.
  set (pre := match active_alerts clock 0 alerts with
              | [] => ""
              | _ :: _ => _ end).
  exists pre.
  apply str_or_nonempty, append_nonempty_r, getSeasonalConditions_nonempty.
Qed.

Lemma processAlerts_no_active (clock : nat -> Z) (st : string) (alerts : list alert) (hot : bool) :
  active_alerts clock 0 alerts = [] ->
  processAlerts clock st alerts hot = getSeasonalConditions st hot.
Proof.
  intro H. unfold processAlerts. rewrite H. simpl.
  apply str_or_nonempty, getSeasonalConditions_nonempty.
Qed.

Lemma processAlerts_nonempty (clock : nat -> Z) (st : string) (alerts : list alert) (hot : bool) :
  processAlerts clock st alerts hot <> "".
Proof.
  destruct (processAlerts_shape clock st alerts hot) as [pre ->].
  apply append_nonempty_r, getSeasonalConditions_nonempty.
Qed.

Lemma generateFallbackConditions_nonempty (st : string) (hot : bool) :
  generateFallbackConditions st hot <> "".
Proof. destruct hot; unfold generateFallbackConditions; simpl; discriminate. Qed.

Lemma generateStateConditions_nonempty clock st hot r :
  generateStateConditions clock st hot r <> "".
Proof.
  destruct r; simpl;
    auto using processAlerts_nonempty, generateFallbackConditions_nonempty.
Qed.

(** C2 (as stated): the spec's sentence is not what processAlerts returns
    for Georgia with no alerts outside the hot season. *)
Lemma C2_no_hazards_sentence_counterexample :
  processAlerts (fun _ => 0%Z) "Georgia" [] false
  <> "No significant weather hazards reported for Georgia at this time.".
Proof. vm_compute. discriminate. Qed.

(** C2 (amended): on the alerts branch with zero active alerts and
    isHotSeason = false, processAlerts returns exactly the generic seasonal
    sentence, for every jurisdiction name, and never the "no significant
    hazards" sentence. *)
Theorem processAlerts_zero_active_cold_season (clock : nat -> Z) (st : string)
    (alerts : list alert) :
  active_alerts clock 0 alerts = [] ->
  processAlerts clock st alerts false
    = "Typical seasonal weather patterns expected. Monitor for changing conditions. "
  /\ processAlerts clock st alerts false
    <> "No significant weather hazards reported for " ++ st ++ " at this time.".
Proof.
  intro H. rewrite (processAlerts_no_active clock st alerts false H).
  split; [reflexivity|].
  simpl. intro E. inversion E.
Qed.

Lemma processAlerts_zero_active_cold_season_witness :
  active_alerts (fun _ => 50%Z) 0 [mk_alert "Heat Advisory" "Moderate" (Some 40%Z) "x"] = []
  /\ processAlerts (fun _ => 50%Z) "Georgia" [mk_alert "Heat Advisory" "Moderate" (Some 40%Z) "x"] false
     = "Typical seasonal weather patterns expected. Monitor for changing conditions. ".
Proof.
  split; [reflexivity|].
  apply (processAlerts_zero_active_cold_season (fun _ => 50%Z) "Georgia"
           [mk_alert "Heat Advisory" "Moderate" (Some 40%Z) "x"]).
  reflexivity.
Defined.

(** C6: once every source of v1 (and of v3) has produced no usable result,
    the terminal fallback depends on the month only: in July (month 6) its
    formation chance is a descriptive, digit-free token other than "0%",
    in January (month 0) it is exactly "0%".  The part_000 fallback agrees. *)
Theorem terminal_fallback_by_month
    (r_json : fetch_result (option (list area))) (r_rss : fetch_result string)
    (r_storms : fetch_result (option (list jsfield)))
    (clock : nat -> Z) (r_two : product_src) (r_alerts : fetch_result (list alert))
    (r_afd r_hsp : product_src) :
  json_src_v1 r_json = None -> rss_src_v1 r_rss = None -> storms_src r_storms = None ->
  method1_v3 r_two = Next -> method2_v3 clock r_alerts = Next ->
  method_checked extractTropicalFromAFD r_afd = Next ->
  method_checked extractTropicalFromMarine r_hsp = Next ->
  descriptive_token (formation_chance (getTropicalOutlook_v1 6 r_json r_rss r_storms))
  /\ formation_chance (getTropicalOutlook_v1 0 r_json r_rss r_storms) = "0%"
  /\ (exists o, getTropicalOutlook_v3 6 clock r_two r_alerts r_afd r_hsp = Some o
                /\ descriptive_token (formation_chance o))
  /\ option_map formation_chance (getTropicalOutlook_v3 0 clock r_two r_alerts r_afd r_hsp)
     = Some "0%"
  /\ descriptive_token (formation_chance (season_fallback_v2 6))
  /\ formation_chance (season_fallback_v2 0) = "0%".
Proof.
  intros H1 H2 H3 H4 H5 H6 H7.
  unfold getTropicalOutlook_v1, getTropicalOutlook_v3.
  rewrite H1, H2, H3, H4, H5, H6, H7.
  repeat split; try discriminate; try reflexivity.
  eexists; split; [reflexivity|]. split; [reflexivity|discriminate].
Qed.

Lemma terminal_fallback_by_month_witness :
  descriptive_token (formation_chance (getTropicalOutlook_v1 6 FThrows FThrows FThrows))
  /\ formation_chance (getTropicalOutlook_v1 0 FThrows FThrows FThrows) = "0%".
Proof.
  destruct (terminal_fallback_by_month FThrows FThrows FThrows (fun _ => 0%Z)
              PThrows FThrows PThrows PThrows)
    as [A [B _]]; try reflexivity.
  split; assumption.
Defined.

(** C9: the composer's hot season (months 4..9) and the resolver's
    hurricane season (months 5..10) differ.  In May the composer uses the
    hot-season sentences while every resolver fallback reports "0%"
    outside hurricane season; in November the composer uses the
    cold-season sentences while the fallbacks report a descriptive token. *)
Theorem hot_season_differs_from_hurricane_season :
  (isHotSeason 4 = true /\ isHurricaneSeason 4 = false
   /\ (forall clock st alerts, exists pre,
         processAlerts clock st alerts (isHotSeason 4)
         = pre ++ "Monitor for heat stress during outdoor activities. Stay hydrated and seek air conditioning during peak heating hours. ")
   /\ (forall st, starts_with hot_opening (generateFallbackConditions st (isHotSeason 4)) = true)
   /\ season_fallback_v1 4 = mk_outlook outside_season_text "0%"
   /\ season_fallback_v2 4 = mk_outlook outside_season_text "0%"
   /\ season_fallback_v3 4 = mk_outlook outside_season_text "0%")
  /\
  (isHotSeason 10 = false /\ isHurricaneSeason 10 = true
   /\ (forall clock st alerts, exists pre,
         processAlerts clock st alerts (isHotSeason 10)
         = pre ++ "Typical seasonal weather patterns expected. Monitor for changing conditions. ")
   /\ (forall st, starts_with ("Seasonal temperatures expected for " ++ st ++ ". ")
                    (generateFallbackConditions st (isHotSeason 10)) = true)
   /\ formation_chance (season_fallback_v1 10) = "Check NHC"
   /\ formation_chance (season_fallback_v2 10) = "Visit NHC"
   /\ formation_chance (season_fallback_v3 10) = "Monitor NWS").
Proof.
  split; repeat split; try reflexivity;
    try (intros; apply processAlerts_shape);
    intro st; unfold generateFallbackConditions;
    cbv [isHotSeason Nat.leb andb];
    rewrite ?starts_with_app_l; apply starts_with_app.
Qed.

Lemma existsb_state_names (st : string) :
  In st state_names -> existsb (String.eqb st) state_names = true.
Proof.
  intro H. apply existsb_exists. exists st. split; [exact H|apply String.eqb_refl].
Qed.

(** C10: for every jurisdiction name and both season flags the fallback
    composer returns a non-empty text opening with the season sentence;
    every entry fetchWeatherConditions stores is non-empty, so the state
    section of the report is exactly one state block per catalog
    jurisdiction, in catalog order. *)
Theorem fallback_opening_and_state_lines :
  (forall (st : string) (hot : bool),
     generateFallbackConditions st hot <> ""
     /\ starts_with (if hot then hot_opening
                     else "Seasonal temperatures expected for " ++ st ++ ". ")
                    (generateFallbackConditions st hot) = true)
  /\
  (forall (month : nat) (clock : string -> nat -> Z)
          (resp : string -> fetch_result (option (list alert)))
          (tropical : option outlook) (checkTime startDate endDate : string),
     let wd := fetchWeatherConditions month clock resp tropical in
     generateReport wd checkTime startDate endDate
     = report_header wd checkTime startDate endDate
       ++ String.concat ""
            (map (fun st => state_line st
                    (highlight (generateStateConditions (clock st) st (isHotSeason month) (resp st))))
                 state_names)
       ++ report_footer).
Proof.
  split.
  - intros st hot. split; [apply generateFallbackConditions_nonempty|].
    destruct hot; unfold generateFallbackConditions;
      rewrite ?starts_with_app_l; apply starts_with_app.
  - intros month clock resp tropical checkTime startDate endDate wd.
    unfold generateReport, state_section. f_equal. f_equal. f_equal.
    apply map_ext_in. intros st Hin. subst wd. unfold fetchWeatherConditions. cbn [wd_state].
    rewrite (existsb_state_names st Hin).
    destruct (String.eqb_spec (generateStateConditions (clock st) st (isHotSeason month) (resp st)) "")
      as [E|E].
    + exfalso. exact (generateStateConditions_nonempty _ _ _ _ E).
    + reflexivity.
Qed.

Lemma active_alerts_sound (clock : nat -> Z) (i : nat) (l : list alert) (a : alert) :
  In a (active_alerts clock i l) -> exists j, is_active (clock j) a = true.
Proof.
  revert i. induction l as [|b l IH]; intros i H; simpl in H; [contradiction|].
  destruct (is_active (clock i) b) eqn:E.
  - destruct H as [<-|H]; [exists i; exact E|exact (IH _ H)].
  - exact (IH _ H).
Qed.

Section Expiry.
Variable clock : nat -> Z.
Variable now : Z.
(** Every reading of new Date() taken while filtering is at or after
    "now". *)
Hypothesis clock_after_now : forall i, (now <= clock i)%Z.

Lemma expired_not_active (a : alert) (e : Z) (alerts : list alert) :
  expires a = Some e -> (e <= now)%Z -> ~ In a (active_alerts clock 0 alerts).
Proof.
  intros He Hle Hin.
  destruct (active_alerts_sound clock 0 alerts a Hin) as [j Hj].
  unfold is_active in Hj. rewrite He in Hj. apply Z.ltb_lt in Hj.
  specialize (clock_after_now j). lia.
Qed.

(** C7: an alert whose expiry is at or before "now" is in none of the
    warning, watch and advisory groups. *)
Theorem expired_alerts_in_no_group (a : alert) (e : Z) (alerts : list alert) :
  expires a = Some e -> (e <= now)%Z ->
  ~ In a (warnings_of clock alerts) /\ ~ In a (watches_of clock alerts)
  /\ ~ In a (advisories_of clock alerts).
Proof.
  intros He Hle.
  unfold warnings_of, watches_of, advisories_of.
  repeat split; intro H; apply filter_In in H; destruct H as [H _];
    exact (expired_not_active a e alerts He Hle H).
Qed.
End Expiry.

Lemma expired_alerts_in_no_group_witness :
  let a := mk_alert "Tornado Warning" "Extreme" (Some 100%Z) "Fulton" in
  ~ In a (warnings_of (fun _ => 100%Z) [a]) /\ ~ In a (watches_of (fun _ => 100%Z) [a])
  /\ ~ In a (advisories_of (fun _ => 100%Z) [a]).
Proof.
  intro a.
  apply (expired_alerts_in_no_group (fun _ => 100%Z) 100%Z (fun _ => Z.le_refl _) a 100%Z [a]);
    reflexivity.
Defined.

(** C4 (as stated): a template without the placeholder is written back
    unchanged and the run succeeds; nothing reports the missing marker. *)
Lemma C4_missing_marker_counterexample :
  updateHtmlFile_v2 (Some "<p>report</p>") (Some "<html><body>no marker</body></html>") true
  = Written "<html><body>no marker</body></html>"
  /\ updateHtmlFile_v1 (Some "<p>report</p>") "10/18/2026" (Some "<html><body>no marker</body></html>") true
  <> ExitFailure.
Proof. split; [reflexivity|discriminate]. Qed.

(** C4 (amended): when the placeholder does not match, the replace leaves
    the template unchanged and updateHtmlFile completes by writing it back
    (v1 only substitutes the Loading... text). *)
Theorem missing_marker_written_unchanged (reportHtml updateTime tpl : string) :
  placeholder_match tpl = None ->
  updateHtmlFile_v2 (Some reportHtml) (Some tpl) true = Written tpl
  /\ updateHtmlFile_v1 (Some reportHtml) updateTime (Some tpl) true
     = Written (replace_loading tpl updateTime).
Proof.
  intro H. unfold updateHtmlFile_v1, updateHtmlFile_v2, replace_placeholder.
  rewrite H. split; reflexivity.
Qed.

Lemma missing_marker_written_unchanged_witness :
  placeholder_match "<html><body>no marker</body></html>" = None
  /\ updateHtmlFile_v2 (Some "<p>r</p>") (Some "<html><body>no marker</body></html>") true
     = Written "<html><body>no marker</body></html>".
Proof.
  split; [reflexivity|].
  apply (missing_marker_written_unchanged "<p>r</p>" "t" "<html><body>no marker</body></html>").
  reflexivity.
Defined.

(** C5: in part_001, method 1 returns parseNWSTropicalOutlook's result
    without checking it, and method 2 returns processTropicalAlerts's
    result likewise: both can be null, which getTropicalOutlook then
    returns instead of a TropicalOutlook. *)
Theorem getTropicalOutlook_v3_returns_null :
  (forall month clock r_alerts r_afd r_hsp,
     getTropicalOutlook_v3 month clock (PProduct (Some "NO ACTIVITY")) r_alerts r_afd r_hsp = None)
  /\
  (forall month r_afd r_hsp,
     getTropicalOutlook_v3 month (fun _ => 200%Z) PThrows
       (FOk [mk_alert "Tropical Storm Watch" "Moderate" (Some 100%Z) "Key West"]) r_afd r_hsp
     = None).
Proof. split; intros; reflexivity. Qed.

Lemma chance_value_ok (f : jsfield) (m : Z) :
  chance_ok f = true -> (0 <= m)%Z ->
  exists c, chance_value f = Some c /\ max_with m c = Z.max m (field_val f).
Proof.
  intros Hok Hm. destruct f as [|s|n|s]; simpl in Hok |- *.
  - exists None. split; [reflexivity|simpl; lia].
  - unfold chance_value, field_val. simpl truthy. destruct (negb (String.eqb s "")).
    + eexists; split; reflexivity.
    + exists None. split; [reflexivity|simpl; lia].
  - apply Z.eqb_eq in Hok. subst n.
    exists None. split; [reflexivity|simpl; lia].
  - discriminate.
Qed.

Lemma max2_of_nonneg (areas : list area) : (0 <= max2_of areas)%Z.
Proof. induction areas; simpl; lia. Qed.

Lemma max7_of_nonneg (areas : list area) : (0 <= max7_of areas)%Z.
Proof. induction areas; simpl; lia. Qed.

Lemma fold_areas_v1 (areas : list area) (m2 m7 : Z) (txt : string) :
  forallb area_ok areas = true -> (0 <= m2)%Z -> (0 <= m7)%Z ->
  exists txt', fold_areas area_step_v1 (m2, m7, txt) areas
               = Some (Z.max m2 (max2_of areas), Z.max m7 (max7_of areas), txt').
Proof.
  revert m2 m7 txt.
  induction areas as [|a l IH]; intros m2 m7 txt Hall H2 H7; simpl.
  - exists txt. rewrite !Z.max_l by lia. reflexivity.
  - simpl in Hall. apply andb_prop in Hall as [Ha Hall].
    unfold area_ok in Ha. apply andb_prop in Ha as [Ha2 Ha7].
    destruct (chance_value_ok _ m2 Ha2 H2) as [c2 [E2 M2]].
    destruct (chance_value_ok _ m7 Ha7 H7) as [c7 [E7 M7]].
    unfold area_step_v1. rewrite E2. simpl. rewrite E7. simpl.
    rewrite M2, M7.
    edestruct IH as [txt' E]; [exact Hall| | |rewrite E; exists txt'].
    + lia.
    + lia.
    + rewrite !Z.max_assoc. reflexivity.
Qed.

Lemma fold_areas_v2 (areas : list area) (idx : nat) (mx : Z) (txt : string) :
  forallb area_ok areas = true -> (0 <= mx)%Z ->
  exists idx' txt', fold_areas area_step_v2 (idx, mx, txt) areas
               = Some (idx', Z.max mx (Z.max (max7_of areas) (max2_of areas)), txt').
Proof.
  revert idx mx txt.
  induction areas as [|a l IH]; intros idx mx txt Hall Hm; simpl.
  - exists idx, txt. rewrite (Z.max_l mx) by (cbn; lia). reflexivity.
  - simpl in Hall. apply andb_prop in Hall as [Ha Hall].
    unfold area_ok in Ha. apply andb_prop in Ha as [Ha2 Ha7].
    destruct (chance_value_ok _ mx Ha7 Hm) as [c7 [E7 M7]].
    assert (Hm' : (0 <= Z.max mx (field_val (chance7day a)))%Z) by lia.
    destruct (chance_value_ok _ _ Ha2 Hm') as [c2 [E2 M2]].
    unfold area_step_v2. rewrite E7. simpl. rewrite E2. simpl.
    rewrite M7, M2.
    edestruct IH as [idx' [txt' E]]; [exact Hall| |rewrite E; exists idx', txt'].
    + lia.
    + f_equal. f_equal. f_equal. lia.
Qed.

(** C1 (as stated): on the areas of the claim's example, v1
    (update-weather.js) reports "40%" while the maximum over all areas and
    both fields is 70. *)
Lemma C1_formation_chance_counterexample :
  formation_chance (getTropicalOutlook_v1 6 (FOk (Some C1_areas)) FThrows FThrows) = "40%"
  /\ percent_string (Z.max (max7_of C1_areas) (max2_of C1_areas)) = "70%".
Proof. split; vm_compute; reflexivity. Qed.

Lemma chance_value_bad (f : jsfield) : chance_ok f = false -> chance_value f = None.
Proof.
  destruct f as [|s|n|s]; simpl; intro H; try discriminate.
  - unfold chance_value. simpl. rewrite H. reflexivity.
  - reflexivity.
Qed.

(** A field on which .replace throws aborts the forEach, whatever was
    accumulated: the whole source is then skipped. *)
Lemma fold_areas_throws {S} (step : S -> area -> option S) (areas : list area) :
  (forall acc a, area_ok a = false -> step acc a = None) ->
  (forall acc a, area_ok a = true -> exists acc', step acc a = Some acc') ->
  forallb area_ok areas = false -> forall acc, fold_areas step acc areas = None.
Proof.
  intros Hbad Hok. induction areas as [|a l IH]; [discriminate|].
  intros Hall acc. simpl in Hall |- *.
  destruct (area_ok a) eqn:Ea.
  - destruct (Hok acc a Ea) as [acc' ->]. simpl. exact (IH Hall acc').
  - rewrite (Hbad acc a Ea). reflexivity.
Qed.

Lemma area_step_v1_throws (acc : Z * Z * string) (a : area) :
  area_ok a = false -> area_step_v1 acc a = None.
Proof.
  destruct acc as [[m2 m7] txt]. unfold area_ok, area_step_v1. intro H.
  destruct (chance_ok (chance2day a)) eqn:E2.
  - destruct (chance_value_ok _ 0 E2 (Z.le_refl 0)) as [c [-> _]]. simpl.
    rewrite (chance_value_bad _ H). reflexivity.
  - rewrite (chance_value_bad _ E2). reflexivity.
Qed.

Lemma area_step_v2_throws (acc : nat * Z * string) (a : area) :
  area_ok a = false -> area_step_v2 acc a = None.
Proof.
  destruct acc as [[idx mx] txt]. unfold area_ok, area_step_v2. intro H.
  destruct (chance_ok (chance7day a)) eqn:E7.
  - destruct (chance_value_ok _ 0 E7 (Z.le_refl 0)) as [c [-> _]]. simpl.
    rewrite andb_true_r in H. rewrite (chance_value_bad _ H). reflexivity.
  - rewrite (chance_value_bad _ E7). reflexivity.
Qed.

Lemma area_step_v1_ok (acc : Z * Z * string) (a : area) :
  area_ok a = true -> exists acc', area_step_v1 acc a = Some acc'.
Proof.
  destruct acc as [[m2 m7] txt]. unfold area_ok, area_step_v1. intro H.
  apply andb_prop in H as [H2 H7].
  destruct (chance_value_ok _ 0 H2 (Z.le_refl 0)) as [c2 [-> _]].
  destruct (chance_value_ok _ 0 H7 (Z.le_refl 0)) as [c7 [-> _]].
  eexists. reflexivity.
Qed.

Lemma area_step_v2_ok (acc : nat * Z * string) (a : area) :
  area_ok a = true -> exists acc', area_step_v2 acc a = Some acc'.
Proof.
  destruct acc as [[idx mx] txt]. unfold area_ok, area_step_v2. intro H.
  apply andb_prop in H as [H2 H7].
  destruct (chance_value_ok _ 0 H7 (Z.le_refl 0)) as [c7 [-> _]].
  destruct (chance_value_ok _ 0 H2 (Z.le_refl 0)) as [c2 [-> _]].
  eexists. reflexivity.
Qed.

(** C1 (amended): for a non-empty areas list whose probability fields are
    all strings, undefined or 0, v1 (update-weather.js) reports the largest
    7-day value when it is positive, otherwise the largest 2-day value when
    positive, otherwise "0%"; v2 (part_000) reports the maximum across all
    areas and both fields when it is positive, and when it is 0 goes on
    exactly as if the JSON fetch had failed.  When some field is a non-zero
    number or an object, .replace throws and both versions go on as if the
    JSON fetch had failed. *)
Theorem structured_source_formation_chance (areas : list area) (month : nat)
    (r_html r_rss : fetch_result string) (r_storms : fetch_result (option (list jsfield))) :
  areas <> [] ->
  (forallb area_ok areas = true ->
   formation_chance (getTropicalOutlook_v1 month (FOk (Some areas)) r_rss r_storms)
   = (if (0 <? max7_of areas)%Z then percent_string (max7_of areas)
      else if (0 <? max2_of areas)%Z then percent_string (max2_of areas)
      else "0%")
   /\ ((0 < Z.max (max7_of areas) (max2_of areas))%Z ->
       formation_chance (getTropicalOutlook_v2 month (FOk (Some areas)) r_html r_rss r_storms)
       = percent_string (Z.max (max7_of areas) (max2_of areas)))
   /\ (Z.max (max7_of areas) (max2_of areas) = 0%Z ->
       getTropicalOutlook_v2 month (FOk (Some areas)) r_html r_rss r_storms
       = getTropicalOutlook_v2 month FThrows r_html r_rss r_storms))
  /\ (forallb area_ok areas = false ->
      getTropicalOutlook_v1 month (FOk (Some areas)) r_rss r_storms
      = getTropicalOutlook_v1 month FThrows r_rss r_storms
      /\ getTropicalOutlook_v2 month (FOk (Some areas)) r_html r_rss r_storms
         = getTropicalOutlook_v2 month FThrows r_html r_rss r_storms).
Proof.
  intros Hne. destruct areas as [|a l]; [contradiction|].
  split; intro Hall.
  - split; [|split].
    + destruct (fold_areas_v1 (a :: l) 0 0 "" Hall (Z.le_refl _) (Z.le_refl _)) as [txt E].
      rewrite (Z.max_r 0 _ (max7_of_nonneg _)), (Z.max_r 0 _ (max2_of_nonneg _)) in E.
      unfold getTropicalOutlook_v1, json_src_v1. rewrite E.
      reflexivity.
    + intro Hpos.
      destruct (fold_areas_v2 (a :: l) 0 0 "" Hall (Z.le_refl _)) as [idx [txt E]].
      unfold getTropicalOutlook_v2, json_src_v2. rewrite E.
      rewrite Z.max_r by (pose proof (max7_of_nonneg (a :: l)); lia).
      apply Z.ltb_lt in Hpos. rewrite Hpos. reflexivity.
    + intro H0.
      destruct (fold_areas_v2 (a :: l) 0 0 "" Hall (Z.le_refl _)) as [idx [txt E]].
      unfold getTropicalOutlook_v2, json_src_v2. rewrite E, H0. reflexivity.
  - split.
    + unfold getTropicalOutlook_v1, json_src_v1.
      rewrite (fold_areas_throws _ _ area_step_v1_throws area_step_v1_ok Hall). reflexivity.
    + unfold getTropicalOutlook_v2, json_src_v2.
      rewrite (fold_areas_throws _ _ area_step_v2_throws area_step_v2_ok Hall). reflexivity.
Qed.

Lemma structured_source_formation_chance_witness :
  (forallb area_ok C1_areas = true ->
   formation_chance (getTropicalOutlook_v1 6 (FOk (Some C1_areas)) FThrows FThrows)
   = (if (0 <? max7_of C1_areas)%Z then percent_string (max7_of C1_areas)
      else if (0 <? max2_of C1_areas)%Z then percent_string (max2_of C1_areas)
      else "0%")
   /\ ((0 < Z.max (max7_of C1_areas) (max2_of C1_areas))%Z ->
       formation_chance (getTropicalOutlook_v2 6 (FOk (Some C1_areas)) FThrows FThrows FThrows)
       = percent_string (Z.max (max7_of C1_areas) (max2_of C1_areas)))
   /\ (Z.max (max7_of C1_areas) (max2_of C1_areas) = 0%Z ->
       getTropicalOutlook_v2 6 (FOk (Some C1_areas)) FThrows FThrows FThrows
       = getTropicalOutlook_v2 6 FThrows FThrows FThrows FThrows))
  /\ (forallb area_ok C1_areas = false ->
      getTropicalOutlook_v1 6 (FOk (Some C1_areas)) FThrows FThrows
      = getTropicalOutlook_v1 6 FThrows FThrows FThrows
      /\ getTropicalOutlook_v2 6 (FOk (Some C1_areas)) FThrows FThrows FThrows
         = getTropicalOutlook_v2 6 FThrows FThrows FThrows FThrows).
Proof.
  apply (structured_source_formation_chance C1_areas 6 FThrows FThrows FThrows).
  discriminate.
Defined.

Lemma starts_with_drop (p s : string) :
  starts_with p s = true -> s = p ++ drop_n (String.length p) s.
Proof.
  revert s. induction p as [|a p IH]; intros [|b s] H; simpl in *; try discriminate; [reflexivity|reflexivity|].
  apply andb_prop in H as [Hab H]. apply Ascii.eqb_eq in Hab. subst b.
  f_equal. exact (IH s H).
Qed.

Lemma split_first_spec (pat s a b : string) :
  split_first pat s = Some (a, b) -> s = a ++ pat ++ b.
Proof.
  revert a b. induction s as [|c s IH]; intros a b H; simpl in H;
    destruct (starts_with pat _) eqn:E.
  - injection H as <- <-. simpl. apply (starts_with_drop _ _ E).
  - discriminate.
  - injection H as <- <-. simpl. apply (starts_with_drop _ _ E).
  - destruct (split_first pat s) as [[a' b']|] eqn:E'; [|discriminate].
    injection H as <- <-. simpl. f_equal. exact (IH _ _ eq_refl).
Qed.

Lemma starts_with_long (q w z : string) :
  String.length q <= String.length w -> starts_with q (w ++ z) = starts_with q w.
Proof.
  revert w. induction q as [|a q IH]; intros [|b w] H; simpl in *; try lia; try reflexivity.
  rewrite IH by lia. reflexivity.
Qed.

Lemma length_app_str (x y : string) :
  String.length (x ++ y) = String.length x + String.length y.
Proof. induction x as [|c x IH]; simpl; [reflexivity|rewrite IH; reflexivity]. Qed.

Lemma drop_n_app (x y : string) : drop_n (String.length x) (x ++ y) = y.
Proof. induction x as [|c x IH]; simpl; [destruct y|]; auto. Qed.

Lemma split_first_app_pat (pat x z z' : string) :
  split_first pat (x ++ pat ++ z) = Some (x, z) ->
  split_first pat (x ++ pat ++ z') = Some (x, z').
Proof.
  induction x as [|c x IH]; intro H; simpl in *.
  - destruct pat as [|p pat']; [destruct z'; reflexivity|]. simpl.
    rewrite Ascii.eqb_refl, starts_with_app. simpl. rewrite drop_n_app. reflexivity.
  - assert (L : String.length pat <= String.length (String c (x ++ pat))).
    { simpl. rewrite length_app_str. lia. }
    destruct (starts_with pat (String c (x ++ pat ++ z))) eqn:E; [discriminate|].
    rewrite append_assoc_str in E |- *.
    change (String c ((x ++ pat) ++ z)) with (String c (x ++ pat) ++ z) in E.
    change (String c ((x ++ pat) ++ z')) with (String c (x ++ pat) ++ z').
    rewrite starts_with_long in E |- * by exact L. rewrite E.
    rewrite <- append_assoc_str.
    destruct (split_first pat (x ++ pat ++ z)) as [[a b]|] eqn:E'; [|discriminate].
    injection H as <- <-. rewrite (IH eq_refl). reflexivity.
Qed.

Lemma starts_with_split (p w r : string) :
  starts_with p (w ++ r) = true -> String.length w <= String.length p ->
  starts_with (drop_n (String.length w) p) r = true.
Proof.
  revert p. induction w as [|c w IH]; intros p H L; [exact H|].
  destruct p as [|a p]; simpl in *; [lia|].
  apply andb_prop in H as [_ H]. apply IH; [exact H|lia].
Qed.

Lemma div_close_no_straddle (x y : string) :
  includes x div_close = false -> split_first div_close (x ++ div_close ++ y) = Some (x, y).
Proof.
  induction x as [|c x IH]; intro Hx; [reflexivity|].
  change (includes (String c x) div_close)
    with (starts_with div_close (String c x) || includes x div_close) in Hx.
  apply orb_false_elim in Hx as [Hs Hx].
  change (String c x ++ div_close ++ y) with (String c (x ++ div_close ++ y)).
  cbn [split_first]. rewrite (IH Hx).
  destruct (starts_with div_close (String c (x ++ div_close ++ y))) eqn:E; [|reflexivity].
  exfalso.
  change (String c (x ++ div_close ++ y)) with (String c x ++ div_close ++ y) in E.
  destruct (Nat.le_gt_cases (String.length div_close) (String.length (String c x))) as [L|L].
  - rewrite starts_with_long in E by exact L. congruence.
  - apply starts_with_split in E; [|lia].
    assert (P : 1 <= String.length (String c x)) by (simpl; lia).
    revert E L P. generalize (String.length (String c x)). intros n E L P.
    change (String.length div_close) with 6 in L.
    destruct n as [|[|[|[|[|[|n]]]]]]; try lia; cbv in E; discriminate.
Qed.

Lemma includes_app_char (a b : string) (c : ascii) :
  includes (a ++ b) (String c "") = includes a (String c "") || includes b (String c "").
Proof.
  induction a as [|x a IH]; [reflexivity|].
  change (String x a ++ b) with (String x (a ++ b)).
  change (includes (String x (a ++ b)) (String c ""))
    with (starts_with (String c "") (String x (a ++ b)) || includes (a ++ b) (String c "")).
  change (includes (String x a) (String c ""))
    with (starts_with (String c "") (String x a) || includes a (String c "")).
  rewrite IH. simpl. rewrite orb_assoc. reflexivity.
Qed.

Lemma get_substitution_plain (m b a r : string) :
  includes r "$" = false -> get_substitution m b a r = r.
Proof.
  induction r as [|d rest IH]; intro H; [reflexivity|].
  change (includes (String d rest) "$")
    with (starts_with "$" (String d rest) || includes rest "$") in H.
  apply orb_false_elim in H as [Hd H].
  change (starts_with "$" (String d rest)) with (Ascii.eqb "$"%char d && true) in Hd.
  rewrite andb_true_r in Hd.
  destruct rest as [|e t]; [reflexivity|].
  cbn [get_substitution]. rewrite Ascii.eqb_sym, Hd.
  f_equal. exact (IH H).
Qed.

(** C3 (as stated): a fragment holding "</div>" (every generateReport
    output does) is cut at its first "</div>" on re-extraction; a fragment
    holding "$&" has the matched text spliced in; and v1's Loading...
    substitution rewrites text before the placeholder. *)
Lemma C3_round_trip_counterexample :
  extract_placeholder (replace_placeholder C3_template "<div>x</div>") = Some "<div>x"
  /\ extract_placeholder (replace_placeholder C3_template "a$&b") <> Some "a$&b"
  /\ updateHtmlFile_v1 (Some "r") "9:00"
       (Some ("<p>Loading...</p>" ++ report_open ++ div_close)) true
     = Written ("<p>Last Updated: 9:00</p>" ++ report_open ++ "r" ++ div_close).
Proof. split; [|split]; [vm_compute; reflexivity|vm_compute; discriminate|vm_compute; reflexivity]. Qed.

Lemma placeholder_replace_shape (tpl pre inner post f : string) :
  placeholder_match tpl = Some (pre, inner, post) -> includes f "$" = false ->
  tpl = pre ++ report_open ++ inner ++ div_close ++ post
  /\ replace_placeholder tpl f = pre ++ report_open ++ f ++ div_close ++ post.
Proof.
  intros Hm Hs. unfold replace_placeholder. rewrite Hm.
  unfold placeholder_match in Hm.
  destruct (split_first report_open tpl) as [[pre' rest]|] eqn:E1; [|discriminate].
  destruct (split_first div_close rest) as [[inner' post']|] eqn:E2; [|discriminate].
  injection Hm as <- <- <-.
  apply split_first_spec in E2. subst rest. apply split_first_spec in E1.
  split; [exact E1|].
  rewrite get_substitution_plain; [rewrite <- !append_assoc_str; reflexivity|].
  rewrite !includes_app_char, Hs. reflexivity.
Qed.

Lemma placeholder_match_written (tpl pre inner post f z : string) :
  placeholder_match tpl = Some (pre, inner, post) -> includes f div_close = false ->
  placeholder_match (pre ++ report_open ++ f ++ div_close ++ z) = Some (pre, f, z).
Proof.
  intros Hm Hd. unfold placeholder_match in *.
  destruct (split_first report_open tpl) as [[pre' rest]|] eqn:E1; [|discriminate].
  destruct (split_first div_close rest) as [[inner' post']|] eqn:E2; [|discriminate].
  injection Hm as <- <- <-.
  apply split_first_spec in E2 as Er. subst rest.
  apply split_first_spec in E1 as Et. rewrite Et in E1.
  rewrite (split_first_app_pat _ _ _ (f ++ div_close ++ z) E1).
  rewrite (div_close_no_straddle _ _ Hd). reflexivity.
Qed.

(** C3: the replace keeps the template around the placeholder for every
    fragment without '$', and re-extraction gives the fragment back when it
    holds no "</div>".  A fragment with a "</div>" (every generated report)
    breaks the round trip: the lazy pattern stops at its first "</div>", so
    re-extraction returns only the text before it, and the next run
    (updateHtmlFile reads the file it wrote) replaces only that part and
    leaves the rest of the old report, and a second "</div>", in the file. *)
Theorem placeholder_replace_reextract (tpl pre inner post : string) :
  placeholder_match tpl = Some (pre, inner, post) ->
  (forall f, includes f "$" = false ->
     replace_placeholder tpl f = pre ++ report_open ++ f ++ div_close ++ post
     /\ (includes f div_close = false -> extract_placeholder (replace_placeholder tpl f) = Some f))
  /\ (forall a b f2, includes a div_close = false ->
        includes (a ++ div_close ++ b) "$" = false -> includes f2 "$" = false ->
        extract_placeholder (replace_placeholder tpl (a ++ div_close ++ b)) = Some a
        /\ updateHtmlFile_v2 (Some f2) (Some (replace_placeholder tpl (a ++ div_close ++ b))) true
           = Written (pre ++ report_open ++ f2 ++ div_close ++ b ++ div_close ++ post)).
Proof.
  intro Hm. split.
  - intros f Hs. destruct (placeholder_replace_shape _ _ _ _ _ Hm Hs) as [_ Hr].
    split; [exact Hr|]. intro Hd. rewrite Hr. unfold extract_placeholder.
    rewrite (placeholder_match_written _ _ _ _ _ post Hm Hd). reflexivity.
  - intros a b f2 Ha Hs Hs2.
    destruct (placeholder_replace_shape _ _ _ _ _ Hm Hs) as [_ Hr]. rewrite Hr.
    rewrite <- !append_assoc_str.
    pose proof (placeholder_match_written _ _ _ _ _ (b ++ div_close ++ post) Hm Ha) as Hm'.
    split.
    + unfold extract_placeholder. rewrite Hm'. reflexivity.
    + cbn [updateHtmlFile_v2]. f_equal.
      destruct (placeholder_replace_shape _ _ _ _ _ Hm' Hs2) as [_ ->]. reflexivity.
Qed.

Lemma placeholder_replace_reextract_witness :
  (forall f, includes f "$" = false ->
     replace_placeholder C3_template f = "<html>" ++ report_open ++ f ++ div_close ++ "</html>"
     /\ (includes f div_close = false -> extract_placeholder (replace_placeholder C3_template f) = Some f))
  /\ (forall a b f2, includes a div_close = false ->
        includes (a ++ div_close ++ b) "$" = false -> includes f2 "$" = false ->
        extract_placeholder (replace_placeholder C3_template (a ++ div_close ++ b)) = Some a
        /\ updateHtmlFile_v2 (Some f2) (Some (replace_placeholder C3_template (a ++ div_close ++ b))) true
           = Written ("<html>" ++ report_open ++ f2 ++ div_close ++ b ++ div_close ++ "</html>")).
Proof.
  apply (placeholder_replace_reextract C3_template "<html>" "Loading..." "</html>").
  vm_compute. reflexivity.
Defined.

(* ------------------------------------------------------------------ *)
(** ** The literal substitutions of the renderer *)

Lemma replace_all_aux_skip (p r : string) (s : string) (k : nat) :
  replace_all_aux p r k s = replace_all_aux p r 0 (drop_n k s).
Proof.
  revert k. induction s as [|c t IH]; intros [|k]; try reflexivity.
  simpl. apply IH.
Qed.

Lemma replace_all_nil (p r : string) : replace_all p r "" = "".
Proof. reflexivity. Qed.

Lemma replace_all_match (p r s : string) :
  p <> "" -> starts_with p s = true ->
  replace_all p r s = r ++ replace_all p r (drop_n (String.length p) s).
Proof.
  intros Hp H. destruct p as [|a p']; [congruence|].
  destruct s as [|c t]; [discriminate|].
  unfold replace_all. cbn [replace_all_aux]. rewrite H.
  rewrite replace_all_aux_skip. simpl. rewrite Nat.sub_0_r. reflexivity.
Qed.

Lemma replace_all_nomatch (p r : string) (c : ascii) (t : string) :
  starts_with p (String c t) = false ->
  replace_all p r (String c t) = String c (replace_all p r t).
Proof. intro H. unfold replace_all. cbn [replace_all_aux]. rewrite H. reflexivity. Qed.

Lemma starts_with_compat (a w y : string) :
  starts_with a (w ++ y) = true -> starts_with a w = true \/ starts_with w a = true.
Proof.
  revert w. induction a as [|c a IH]; intros [|d w] H; simpl in *; auto.
  apply andb_prop in H as [Hc H]. apply Ascii.eqb_eq in Hc. subst d.
  rewrite Ascii.eqb_refl. simpl. exact (IH w H).
Qed.

Lemma starts_with_app_true (p w z : string) :
  starts_with p w = true -> starts_with p (w ++ z) = true.
Proof.
  revert w. induction p as [|c p IH]; intros [|d w] H; simpl in *; auto; try discriminate.
  apply andb_prop in H as [Hc H]. rewrite Hc. simpl. exact (IH w H).
Qed.

Lemma length_drop_n (k : nat) (s : string) :
  String.length (drop_n k s) = String.length s - k.
Proof.
  revert s. induction k as [|k IH]; intros [|c s]; simpl; try lia.
  apply IH.
Qed.

Lemma drop_n_S (k : nat) (q : string) : drop_n (S k) q = drop_n k (drop_n 1 q).
Proof. destruct q; [destruct k|]; reflexivity. Qed.

Lemma blocks_drop (x w : string) (k : nat) :
  blocks x w = true -> k < String.length x ->
  starts_with w (drop_n k x) = false /\ starts_with (drop_n k x) w = false.
Proof.
  revert k. induction x as [|c x IH]; intros k H L; simpl in L; [lia|].
  change (blocks (String c x) w)
    with (negb (starts_with w (String c x) || starts_with (String c x) w) && blocks x w) in H.
  apply andb_prop in H as [H1 H2].
  destruct k as [|k].
  - apply negb_true_iff, orb_false_elim in H1. exact H1.
  - simpl. apply IH; [exact H2|lia].
Qed.

Lemma blocks_app_replace (x q r y : string) :
  blocks x q = true -> replace_all q r (x ++ y) = x ++ replace_all q r y.
Proof.
  induction x as [|c x IH]; intro H; [reflexivity|].
  change (blocks (String c x) q)
    with (negb (starts_with q (String c x) || starts_with (String c x) q) && blocks x q) in H.
  apply andb_prop in H as [H1 H2]. apply negb_true_iff, orb_false_elim in H1 as [H1 H1'].
  change (String c x ++ y) with (String c (x ++ y)).
  rewrite replace_all_nomatch; [rewrite (IH H2); reflexivity|].
  destruct (starts_with q (String c (x ++ y))) eqn:E; [|reflexivity].
  destruct (starts_with_compat q (String c x) y E); congruence.
Qed.

Lemma blocks_app_count (x q y : string) :
  blocks x q = true -> count_occurrences q (x ++ y) = count_occurrences q y.
Proof.
  induction x as [|c x IH]; intro H; [reflexivity|].
  change (blocks (String c x) q)
    with (negb (starts_with q (String c x) || starts_with (String c x) q) && blocks x q) in H.
  apply andb_prop in H as [H1 H2]. apply negb_true_iff, orb_false_elim in H1 as [H1 H1'].
  change (String c x ++ y) with (String c (x ++ y)). cbn [count_occurrences].
  rewrite (IH H2).
  destruct (starts_with q (String c (x ++ y))) eqn:E; [|reflexivity].
  destruct (starts_with_compat q (String c x) y E); congruence.
Qed.

(** A match of [q] starting inside a non-empty [x] cannot reach into a
    following [w]. *)
Lemma starts_with_straddle (q w x y : string) :
  straddle_free q w = true -> x <> "" ->
  starts_with q (x ++ w ++ y) = starts_with q x.
Proof.
  intros Hs Hx.
  destruct (Nat.le_gt_cases (String.length q) (String.length x)) as [L|L].
  - apply starts_with_long. exact L.
  - destruct (starts_with q (x ++ w ++ y)) eqn:E.
    + exfalso. apply starts_with_split in E; [|lia].
      apply starts_with_compat in E.
      destruct x as [|c x]; [congruence|].
      simpl String.length in E, L. rewrite drop_n_S in E.
      destruct (blocks_drop (drop_n 1 q) w (String.length x) Hs) as [B1 B2].
      * rewrite length_drop_n. lia.
      * destruct E; congruence.
    + symmetry. destruct (starts_with q x) eqn:E'; [|reflexivity].
      rewrite <- E. symmetry. apply starts_with_app_true. exact E'.
Qed.

Lemma starts_with_length (q x : string) :
  starts_with q x = true -> String.length q <= String.length x.
Proof.
  revert x. induction q as [|c q IH]; intros [|d x] H; simpl in *; try lia; try discriminate.
  apply andb_prop in H as [_ H]. apply IH in H. lia.
Qed.

(** Replacing [p] does not create a match of [q] behind a non-empty
    prefix. *)
Lemma no_new_match_front (p rp q : string) :
  p <> "" -> straddle_free q rp = true ->
  forall t x, x <> "" ->
  starts_with q (x ++ replace_all p rp t) = true -> starts_with q (x ++ t) = true.
Proof.
  intros Hp Hs t. induction t as [|c t IH]; intros x Hx H; [exact H|].
  destruct (Nat.le_gt_cases (String.length q) (String.length x)) as [L|L].
  { rewrite starts_with_long in H |- * by exact L. exact H. }
  destruct (starts_with p (String c t)) eqn:Ep.
  - exfalso. rewrite (replace_all_match p rp _ Hp Ep) in H.
    rewrite (starts_with_straddle q rp x _ Hs Hx) in H.
    apply starts_with_length in H. lia.
  - rewrite (replace_all_nomatch _ _ _ _ Ep) in H.
    replace (x ++ String c (replace_all p rp t)) with ((x ++ String c "") ++ replace_all p rp t)
      in H by (rewrite <- append_assoc_str; reflexivity).
    replace (x ++ String c t) with ((x ++ String c "") ++ t)
      by (rewrite <- append_assoc_str; reflexivity).
    apply IH; [|exact H].
    destruct x; discriminate.
Qed.

Section Commute.
Variables p rp q rq : string.
Hypothesis Hp : p <> "".
Hypothesis Hq : q <> "".
Hypothesis B_rp_q : blocks rp q = true.
Hypothesis B_rq_p : blocks rq p = true.
Hypothesis B_p_q : blocks p q = true.
Hypothesis B_q_p : blocks q p = true.
Hypothesis S_q_rp : straddle_free q rp = true.
Hypothesis S_p_rq : straddle_free p rq = true.

Lemma replace_all_commute_n (n : nat) (s : string) :
  String.length s <= n ->
  replace_all q rq (replace_all p rp s) = replace_all p rp (replace_all q rq s).
Proof.
  revert s. induction n as [|n IH]; intros s L.
  { destruct s; [reflexivity|simpl in L; lia]. }
  destruct (starts_with p s) eqn:Ep.
  { pose proof (starts_with_drop _ _ Ep) as Es.
    remember (drop_n (String.length p) s) as X eqn:EX. clear EX. subst s.
    rewrite (replace_all_match p rp _ Hp Ep), drop_n_app.
    rewrite (blocks_app_replace _ _ _ _ B_rp_q), (blocks_app_replace _ _ _ _ B_p_q).
    rewrite (replace_all_match p rp _ Hp (starts_with_app _ _)), drop_n_app.
    f_equal. apply IH. rewrite length_app_str in L.
    destruct p; [congruence|simpl in L; lia]. }
  destruct (starts_with q s) eqn:Eq.
  { pose proof (starts_with_drop _ _ Eq) as Es.
    remember (drop_n (String.length q) s) as X eqn:EX. clear EX. subst s.
    rewrite (replace_all_match q rq _ Hq Eq), drop_n_app.
    rewrite (blocks_app_replace _ _ _ _ B_rq_p), (blocks_app_replace _ _ _ _ B_q_p).
    rewrite (replace_all_match q rq _ Hq (starts_with_app _ _)), drop_n_app.
    f_equal. apply IH. rewrite length_app_str in L.
    destruct q; [congruence|simpl in L; lia]. }
  destruct s as [|c t]; [reflexivity|].
  rewrite (replace_all_nomatch _ _ _ _ Ep), (replace_all_nomatch _ _ _ _ Eq).
  rewrite replace_all_nomatch, (replace_all_nomatch p).
  - f_equal. apply IH. simpl in L. lia.
  - destruct (starts_with p (String c (replace_all q rq t))) eqn:E; [|reflexivity].
    apply (no_new_match_front q rq p Hq S_p_rq t (String c "")) in E; [|discriminate].
    change (String c "" ++ t) with (String c t) in E. congruence.
  - destruct (starts_with q (String c (replace_all p rp t))) eqn:E; [|reflexivity].
    apply (no_new_match_front p rp q Hp S_q_rp t (String c "")) in E; [|discriminate].
    change (String c "" ++ t) with (String c t) in E. congruence.
Qed.
End Commute.

Lemma replace_all_commute (a b : string * string) (s : string) :
  independent a b = true ->
  replace_all (fst b) (snd b) (replace_all (fst a) (snd a) s)
  = replace_all (fst a) (snd a) (replace_all (fst b) (snd b) s).
Proof.
  destruct a as [p rp], b as [q rq]. unfold independent. simpl.
  intro H. rewrite !andb_true_iff in H.
  destruct H as [[[[[[[H1 H2] H3] H4] H5] H6] H7] H8].
  apply negb_true_iff, String.eqb_neq in H1, H2.
  exact (replace_all_commute_n p rp q rq H1 H2 H3 H4 H5 H6 H7 H8
           (String.length s) s (le_n _)).
Qed.

Lemma highlight_rules_commute : rules_commute highlight_rules = true.
Proof. vm_compute. reflexivity. Qed.

Lemma apply_rules_perm (l l' : list (string * string)) (s : string) :
  Permutation l l' ->
  (forall a b, In a l -> In b l -> a = b \/ independent a b = true) ->
  apply_rules l s = apply_rules l' s.
Proof.
  intro P. revert s. induction P as [|x l l' P IH|x y l|l l' l'' P1 IH1 P2 IH2]; intros s H.
  - reflexivity.
  - unfold apply_rules. simpl. apply IH. intros a b Ha Hb. apply H; right; assumption.
  - unfold apply_rules. simpl. f_equal.
    destruct (H y x (or_introl eq_refl) (or_intror (or_introl eq_refl))) as [<-|I].
    + reflexivity.
    + apply replace_all_commute. exact I.
  - rewrite (IH1 s H). apply IH2. intros a b Ha Hb.
    apply H; apply (Permutation_in _ (Permutation_sym P1)); assumption.
Qed.

Lemma rules_commute_spec (l : list (string * string)) :
  rules_commute l = true ->
  forall a b, In a l -> In b l -> a = b \/ independent a b = true.
Proof.
  unfold rules_commute. intros H a b Ha Hb.
  rewrite forallb_forall in H. specialize (H a Ha).
  rewrite forallb_forall in H. specialize (H b Hb).
  apply orb_prop in H as [H|H]; [left|right; exact H].
  apply andb_prop in H as [H1 H2]. apply String.eqb_eq in H1, H2.
  destruct a, b; simpl in *; subst; reflexivity.
Qed.

Lemma highlight_apply_rules (s : string) : highlight s = apply_rules highlight_rules s.
Proof. reflexivity. Qed.

Lemma highlight_any_order (l : list (string * string)) (s : string) :
  Permutation l highlight_rules -> apply_rules l s = highlight s.
Proof.
  intro P. rewrite highlight_apply_rules. apply apply_rules_perm; [exact P|].
  intros a b Ha Hb. apply rules_commute_spec with (l := highlight_rules).
  - exact highlight_rules_commute.
  - exact (Permutation_in _ P Ha).
  - exact (Permutation_in _ P Hb).
Qed.

Lemma replace_all_split_n (q r w y : string) (n : nat) (x : string) :
  q <> "" -> straddle_free q w = true -> String.length x <= n ->
  replace_all q r (x ++ w ++ y) = replace_all q r x ++ replace_all q r (w ++ y).
Proof.
  intros Hq Hs. revert x. induction n as [|n IH]; intros x L.
  { destruct x; [reflexivity|simpl in L; lia]. }
  destruct x as [|c t]; [reflexivity|].
  destruct (starts_with q (String c t)) eqn:E.
  - pose proof (starts_with_drop _ _ E) as Es.
    remember (drop_n (String.length q) (String c t)) as X eqn:EX. clear EX.
    rewrite Es. rewrite <- append_assoc_str.
    rewrite (replace_all_match q r (q ++ X ++ w ++ y) Hq (starts_with_app _ _)), drop_n_app.
    rewrite (replace_all_match q r (q ++ X) Hq (starts_with_app _ _)), drop_n_app.
    rewrite IH; [apply append_assoc_str|].
    rewrite Es, length_app_str in L. destruct q; [congruence|simpl in L; lia].
  - change (String c t ++ w ++ y) with (String c (t ++ w ++ y)).
    rewrite (replace_all_nomatch _ _ _ _ E), replace_all_nomatch.
    + rewrite IH by (simpl in L; lia). reflexivity.
    + change (String c (t ++ w ++ y)) with (String c t ++ w ++ y).
      rewrite (starts_with_straddle q w (String c t) y Hs); [exact E|discriminate].
Qed.

Lemma count_occurrences_split (q w y x : string) :
  straddle_free q w = true ->
  count_occurrences q (x ++ w ++ y) = count_occurrences q x + count_occurrences q (w ++ y).
Proof.
  intro Hs. induction x as [|c t IH]; [reflexivity|].
  change (String c t ++ w ++ y) with (String c (t ++ w ++ y)).
  cbn [count_occurrences]. rewrite IH.
  change (String c (t ++ w ++ y)) with (String c t ++ w ++ y).
  rewrite (starts_with_straddle q w (String c t) y Hs) by discriminate. lia.
Qed.

Lemma count_occurrences_app_le (p x z : string) :
  count_occurrences p x + count_occurrences p z <= count_occurrences p (x ++ z).
Proof.
  induction x as [|c t IH]; [reflexivity|].
  change (String c t ++ z) with (String c (t ++ z)). cbn [count_occurrences].
  destruct (starts_with p (String c t)) eqn:E.
  - change (String c (t ++ z)) with (String c t ++ z).
    rewrite (starts_with_app_true _ _ _ E). lia.
  - destruct (starts_with p (String c (t ++ z))); lia.
Qed.

Lemma count_zero_prefix_replace (p r x z : string) :
  count_occurrences p (x ++ z) = count_occurrences p z ->
  replace_all p r (x ++ z) = x ++ replace_all p r z.
Proof.
  induction x as [|c t IH]; intro H; [reflexivity|].
  change (String c t ++ z) with (String c (t ++ z)) in H |- *.
  cbn [count_occurrences] in H.
  pose proof (count_occurrences_app_le p t z).
  destruct (starts_with p (String c (t ++ z))) eqn:E; [lia|].
  rewrite (replace_all_nomatch _ _ _ _ E), IH by lia. reflexivity.
Qed.

Lemma count_zero_replace (p r y : string) :
  count_occurrences p y = 0 -> replace_all p r y = y.
Proof.
  intro H. rewrite <- (append_nil_str y) at 1.
  rewrite count_zero_prefix_replace; [apply append_nil_str|].
  rewrite append_nil_str. exact H.
Qed.

Lemma count_one_decompose (p s : string) :
  p <> "" -> count_occurrences p s = 1 ->
  exists x y, s = x ++ p ++ y /\ count_occurrences p x = 0 /\ count_occurrences p y = 0
              /\ count_occurrences p (x ++ p ++ y) = count_occurrences p (p ++ y).
Proof.
  intro Hp. induction s as [|c t IH]; intro H; [discriminate|].
  cbn [count_occurrences] in H.
  destruct (starts_with p (String c t)) eqn:E.
  - pose proof (starts_with_drop _ _ E) as Es.
    exists "", (drop_n (String.length p) (String c t)).
    split; [exact Es|]. split; [reflexivity|]. split; [|reflexivity].
    destruct p as [|a p']; [congruence|].
    simpl in Es. injection Es as _ Et.
    pose proof (count_occurrences_app_le (String a p') p' (drop_n (String.length p') t)).
    change (drop_n (String.length (String a p')) (String c t)) with (drop_n (String.length p') t).
    rewrite <- Et in *. lia.
  - destruct (IH H) as [x [y [Et [Hx [Hy Hc]]]]].
    exists (String c x), y. subst t. split; [reflexivity|].
    change (String c x ++ p ++ y) with (String c (x ++ p ++ y)) in E |- *.
    split; [|split; [exact Hy|]].
    + cbn [count_occurrences]. rewrite Hx.
      destruct (starts_with p (String c x)) eqn:E'; [|reflexivity].
      change (String c (x ++ p ++ y)) with (String c x ++ p ++ y) in E.
      rewrite (starts_with_app_true _ _ _ E') in E. discriminate.
    + cbn [count_occurrences]. rewrite E. exact Hc.
Qed.

Lemma replace_all_length_n (q r : string) (n : nat) (v : string) :
  q <> "" -> String.length q <= String.length r -> String.length v <= n ->
  String.length v <= String.length (replace_all q r v).
Proof.
  intros Hq Hl. revert v. induction n as [|n IH]; intros v L.
  { destruct v; [reflexivity|simpl in L; lia]. }
  destruct v as [|c t]; [reflexivity|].
  destruct (starts_with q (String c t)) eqn:E.
  - rewrite (replace_all_match _ _ _ Hq E), length_app_str.
    pose proof (starts_with_length _ _ E).
    assert (String.length (drop_n (String.length q) (String c t))
            <= String.length (replace_all q r (drop_n (String.length q) (String c t)))).
    { apply IH. rewrite length_drop_n. simpl in L |- *. destruct q; [congruence|simpl; lia]. }
    rewrite length_drop_n in *. lia.
  - rewrite (replace_all_nomatch _ _ _ _ E). simpl in L |- *.
    specialize (IH t ltac:(lia)). lia.
Qed.

Lemma replace_all_fixed_count (q r : string) (n : nat) (v : string) :
  q <> "" -> String.length q < String.length r -> String.length v <= n ->
  replace_all q r v = v -> count_occurrences q v = 0.
Proof.
  intros Hq Hl. revert v. induction n as [|n IH]; intros v L H.
  { destruct v; [reflexivity|simpl in L; lia]. }
  destruct v as [|c t]; [reflexivity|].
  destruct (starts_with q (String c t)) eqn:E.
  - exfalso. rewrite (replace_all_match _ _ _ Hq E) in H.
    pose proof (starts_with_length _ _ E).
    pose proof (replace_all_length_n q r (String.length (String c t))
                  (drop_n (String.length q) (String c t)) Hq ltac:(lia)) as G.
    rewrite length_drop_n in G. specialize (G ltac:(lia)).
    apply (f_equal String.length) in H. rewrite length_app_str in H.
    lia.
  - rewrite (replace_all_nomatch _ _ _ _ E) in H. injection H as H.
    cbn [count_occurrences]. rewrite E. simpl in L. rewrite (IH t ltac:(lia) H). reflexivity.
Qed.

Lemma apply_rules_split (l : list (string * string)) (w x y : string) :
  forallb (fun pr => negb (String.eqb (fst pr) "") && straddle_free (fst pr) w
                     && blocks w (fst pr)) l = true ->
  apply_rules l (x ++ w ++ y) = apply_rules l x ++ w ++ apply_rules l y.
Proof.
  revert x y. induction l as [|[q r] l IH]; intros x y H; [reflexivity|].
  simpl in H. apply andb_prop in H as [H Hl]. apply andb_prop in H as [H Hb].
  apply andb_prop in H as [Hq Hs]. apply negb_true_iff, String.eqb_neq in Hq.
  unfold apply_rules. cbn [fold_left fst snd].
  rewrite (replace_all_split_n q r w y (String.length x) x Hq Hs (le_n _)).
  rewrite (blocks_app_replace _ _ _ _ Hb). apply IH. exact Hl.
Qed.

(** C8: the six substitutions of the renderer can be applied in any order
    with the same result; and for a condition text with exactly one
    occurrence of "frequent lightning" (whatever surrounds it, "WARNINGS"
    included), the rendered text is the rendering of the text before it,
    the phrase wrapped once in <strong>...</strong>, and the rendering of
    the text after it; neither rendered part contains the phrase, and the
    phrase occurs exactly once in the output. *)
Theorem frequent_lightning_wrapped_once :
  (forall (l : list (string * string)) (s : string),
     Permutation l highlight_rules -> apply_rules l s = highlight s)
  /\ (forall s : string,
       count_occurrences "frequent lightning" s = 1 ->
       exists x y, s = x ++ "frequent lightning" ++ y
         /\ highlight s = highlight x ++ strong "frequent lightning" ++ highlight y
         /\ count_occurrences "frequent lightning" (highlight x) = 0
         /\ count_occurrences "frequent lightning" (highlight y) = 0
         /\ count_occurrences "frequent lightning" (highlight s) = 1).
Proof.
  split; [intros l s P; exact (highlight_any_order l s P)|].
  set (FL := "frequent lightning").
  set (l1 := [("WARNINGS", span_class "warning" "WARNINGS");
              ("WATCHES", span_class "watch" "WATCHES");
              ("ADVISORIES", span_class "advisory" "ADVISORIES")]).
  set (l2 := [("dangerous lightning", strong "dangerous lightning");
              ("cloud-to-ground lightning", strong "cloud-to-ground lightning")]).
  assert (HFL : FL <> "") by discriminate.
  assert (first : forall v, highlight v = apply_rules (l1 ++ l2) (replace_all FL (strong FL) v)).
  { intro v. rewrite <- (highlight_any_order ((FL, strong FL) :: l1 ++ l2) v).
    - reflexivity.
    - exact (Permutation_middle l1 l2 (FL, strong FL)). }
  assert (last : forall v, highlight v = replace_all FL (strong FL) (apply_rules (l1 ++ l2) v)).
  { intro v. rewrite <- (highlight_any_order ((l1 ++ l2) ++ [(FL, strong FL)]) v).
    - unfold apply_rules. rewrite fold_left_app. reflexivity.
    - change highlight_rules with (l1 ++ (FL, strong FL) :: l2)%list.
      rewrite <- app_assoc. apply Permutation_app_head. symmetry.
      apply Permutation_cons_append. }
  assert (free : forall v, count_occurrences FL v = 0 ->
                 count_occurrences FL (highlight v) = 0
                 /\ highlight v = apply_rules (l1 ++ l2) v).
  { intros v Hv.
    assert (E : highlight v = apply_rules (l1 ++ l2) v)
      by (rewrite first, (count_zero_replace _ _ _ Hv); reflexivity).
    split; [|exact E].
    apply (replace_all_fixed_count FL (strong FL) (String.length (highlight v)));
      [exact HFL|vm_compute; lia|apply le_n|].
    rewrite E at 1. rewrite <- last. reflexivity. }
  intros s Hs.
  destruct (count_one_decompose FL s HFL Hs) as [x [y [Es [Hx [Hy Hc]]]]].
  destruct (free x Hx) as [Fx Ex]. destruct (free y Hy) as [Fy Ey].
  assert (Hh : highlight s = highlight x ++ strong FL ++ highlight y).
  { rewrite first, Es, (count_zero_prefix_replace _ _ _ _ Hc).
    rewrite (replace_all_match FL _ _ HFL (starts_with_app _ _)), drop_n_app.
    rewrite (count_zero_replace _ _ _ Hy).
    rewrite apply_rules_split by (vm_compute; reflexivity).
    rewrite Ex, Ey. reflexivity. }
  exists x, y. split; [exact Es|]. split; [exact Hh|].
  split; [exact Fx|]. split; [exact Fy|].
  rewrite Hh, count_occurrences_split by (vm_compute; reflexivity).
  rewrite Fx.
  change (strong FL ++ highlight y) with ("<strong>frequent lightning" ++ "</strong>" ++ highlight y).
  rewrite count_occurrences_split by (vm_compute; reflexivity).
  rewrite blocks_app_count by (vm_compute; reflexivity).
  rewrite Fy. vm_compute. reflexivity.
Qed.

Lemma frequent_lightning_wrapped_once_witness :
  exists x y, "Heat WARNINGS with frequent lightning" = x ++ "frequent lightning" ++ y
    /\ highlight "Heat WARNINGS with frequent lightning"
       = highlight x ++ strong "frequent lightning" ++ highlight y
    /\ count_occurrences "frequent lightning" (highlight x) = 0
    /\ count_occurrences "frequent lightning" (highlight y) = 0
    /\ count_occurrences "frequent lightning" (highlight "Heat WARNINGS with frequent lightning") = 1.
Proof.
  apply (proj2 frequent_lightning_wrapped_once). vm_compute. reflexivity.
Defined.

(* ------------------------------------------------------------------ *)
(** * Further properties of the code *)

(** ** FilePublisher: re-running on its own output *)

(** Publishing a fragment [f1] without "</div>" and '$', and then
    publishing [f2] (without '$') into the written file, writes what
    publishing [f2] into the original template writes: the second run
    finds the placeholder again and keeps the rest of the file. *)
Theorem updateHtmlFile_v2_rerun (tpl out f1 f2 : string) :
  includes f1 div_close = false -> includes f1 "$" = false -> includes f2 "$" = false ->
  updateHtmlFile_v2 (Some f1) (Some tpl) true = Written out ->
  updateHtmlFile_v2 (Some f2) (Some out) true = updateHtmlFile_v2 (Some f2) (Some tpl) true.
Proof.
  intros Hd1 Hs1 Hs2 Hw. cbn [updateHtmlFile_v2] in *.
  injection Hw as <-. f_equal.
  destruct (placeholder_match tpl) as [[[pre inner] post]|] eqn:Hm.
  - destruct (placeholder_replace_shape _ _ _ _ _ Hm Hs1) as [_ ->].
    destruct (placeholder_replace_shape _ _ _ _ _ Hm Hs2) as [_ ->].
    pose proof (placeholder_match_written _ _ _ _ _ post Hm Hd1) as Hm'.
    destruct (placeholder_replace_shape _ _ _ _ _ Hm' Hs2) as [_ ->]. reflexivity.
  - unfold replace_placeholder. rewrite Hm. rewrite Hm. reflexivity.
Qed.

Lemma updateHtmlFile_v2_rerun_witness :
  (includes "<p>a</p>" div_close = false /\ includes "<p>a</p>" "$" = false
   /\ includes "<p>b</p>" "$" = false
   /\ updateHtmlFile_v2 (Some "<p>a</p>") (Some C3_template) true
      = Written ("<html>" ++ report_open ++ "<p>a</p>" ++ div_close ++ "</html>"))
  /\ updateHtmlFile_v2 (Some "<p>b</p>")
       (Some ("<html>" ++ report_open ++ "<p>a</p>" ++ div_close ++ "</html>")) true
     = updateHtmlFile_v2 (Some "<p>b</p>") (Some C3_template) true.
Proof.
  assert (H : includes "<p>a</p>" div_close = false /\ includes "<p>a</p>" "$" = false
   /\ includes "<p>b</p>" "$" = false
   /\ updateHtmlFile_v2 (Some "<p>a</p>") (Some C3_template) true
      = Written ("<html>" ++ report_open ++ "<p>a</p>" ++ div_close ++ "</html>"))
    by (vm_compute; repeat split).
  split; [exact H|].
  destruct H as (H1 & H2 & H3 & H4).
  exact (updateHtmlFile_v2_rerun _ _ _ _ H1 H2 H3 H4).
Defined.

(** ** getTropicalOutlook of v1: what each source can return *)

Lemma take_n_nonempty (n : nat) (s : string) : s <> "" -> take_n (S n) s <> "".
Proof. destruct s; [congruence|]. discriminate. Qed.

Lemma str_or_default_nonempty (a b : string) : b <> "" -> str_or a b <> "".
Proof. destruct a; [tauto|discriminate]. Qed.

Lemma rss_desc_step_inv (D : list string) (d : string) (acc : Z * string) :
  In d D -> rss_inv D acc -> rss_inv D (rss_desc_step acc d).
Proof.
  intros Hd. unfold rss_desc_step.
  set (clean := trim (strip_tags d)).
  destruct (pct_scan 0 clean) as [|m ms] eqn:Hs; [tauto|].
  assert (Hc : clean <> "") by (intro E; rewrite E in Hs; discriminate).
  rewrite <- Hs. clear Hs. generalize (pct_scan 0 clean) as l.
  intro l. revert acc. induction l as [|x l IH]; intros [mx txt] Hi; [exact Hi|].
  cbn [fold_left]. apply IH. cbv beta iota.
  destruct (parseInt (remove_first "%"%char x)) as [num|]; [|exact Hi].
  destruct (mx <? num)%Z eqn:E; [|exact Hi].
  apply Z.ltb_lt in E. right. cbn [fst snd]. split.
  - destruct Hi as [[H _]|[H _]]; cbn [fst] in H; lia.
  - exists d. split; [exact Hd|]. split; [reflexivity|]. apply take_n_nonempty, Hc.
Qed.

Lemma rss_fold_inv (D l : list string) (acc : Z * string) :
  incl l D -> rss_inv D acc -> rss_inv D (fold_left rss_desc_step l acc).
Proof.
  revert acc. induction l as [|d l IH]; intros acc Hl Hi; [exact Hi|].
  simpl. apply IH; [intros x Hx; apply Hl; right; exact Hx|].
  apply rss_desc_step_inv; [apply Hl; left; reflexivity|exact Hi].
Qed.

Lemma rss_src_v1_shape (xml : string) (o : outlook) :
  rss_src_v1 (FOk xml) = Some o ->
  (exists n, (0 < n)%Z /\ formation_chance o = percent_string n)
  /\ (exists d, In d (desc_scan 0 xml)
                /\ outlook_text o = take_n 400 (trim (strip_tags d)))
  /\ outlook_text o <> "".
Proof.
  unfold rss_src_v1. destruct (desc_scan 0 xml) as [|d0 ds] eqn:Hd; [discriminate|].
  rewrite <- Hd.
  pose proof (rss_fold_inv (desc_scan 0 xml) (desc_scan 0 xml) (0%Z, "")
                (incl_refl _) (or_introl (conj eq_refl eq_refl))) as Hi.
  destruct (fold_left rss_desc_step (desc_scan 0 xml) (0%Z, "")) as [mx txt].
  destruct Hi as [[H1 H2]|[H1 (d & Hin & Ht & Hne)]]; simpl in *.
  - subst. discriminate.
  - apply Z.ltb_lt in H1 as H1'. rewrite H1'. simpl. intro H. injection H as <-. simpl.
    rewrite str_or_nonempty by exact Hne.
    split; [exists mx; split; [apply Z.ltb_lt; exact H1'|reflexivity]|].
    split; [exists d; split; assumption|exact Hne].
Qed.

(** The RSS source of v1 returns only a positive formation chance n%, and
    its text is the first 400 characters of one of the feed's
    descriptions, never empty: its "0%" and its default text are never
    returned. *)
Theorem rss_src_v1_positive (xml : string) (o : outlook) :
  rss_src_v1 (FOk xml) = Some o ->
  (exists n, (0 < n)%Z /\ formation_chance o = percent_string n)
  /\ (exists d, In d (desc_scan 0 xml)
                /\ outlook_text o = take_n 400 (trim (strip_tags d)))
  /\ outlook_text o <> "".
Proof. apply rss_src_v1_shape. Qed.

Lemma rss_src_v1_positive_witness :
  rss_src_v1 (FOk "<item><description>Formation chance 30 % through 48 hours</description></item>")
  = Some (mk_outlook "Formation chance 30 % through 48 hours" "30%")
  /\ ((exists n, (0 < n)%Z /\ "30%" = percent_string n)
      /\ (exists d, In d (desc_scan 0 "<item><description>Formation chance 30 % through 48 hours</description></item>")
                    /\ "Formation chance 30 % through 48 hours" = take_n 400 (trim (strip_tags d)))
      /\ "Formation chance 30 % through 48 hours" <> "").
Proof.
  assert (H : rss_src_v1 (FOk "<item><description>Formation chance 30 % through 48 hours</description></item>")
              = Some (mk_outlook "Formation chance 30 % through 48 hours" "30%"))
    by (vm_compute; reflexivity).
  split; [exact H|]. exact (rss_src_v1_positive _ _ H).
Defined.

Lemma json_src_v1_shape (r : fetch_result (option (list area))) (o : outlook) :
  json_src_v1 r = Some o -> outlook_text o <> "" /\ v1_chance_ok (formation_chance o).
Proof.
  unfold json_src_v1. destruct r as [| |[[|a l]|]]; try discriminate.
  destruct (fold_areas area_step_v1 (0%Z, 0%Z, "") (a :: l)) as [[[m2 m7] txt]|];
    [|discriminate].
  intro H. injection H as <-. cbn [outlook_text formation_chance].
  split; [apply str_or_default_nonempty; discriminate|].
  unfold v1_chance_ok.
  destruct (0 <? m7)%Z eqn:E7;
    [right; right; right; exists m7; split; [apply Z.ltb_lt; exact E7|reflexivity]|].
  destruct (0 <? m2)%Z eqn:E2;
    [right; right; right; exists m2; split; [apply Z.ltb_lt; exact E2|reflexivity]|].
  left. reflexivity.
Qed.

(** Whatever the three sources answer, getTropicalOutlook of v1 returns a
    non-empty outlook text and a formation chance that is "0%", "Active
    Systems", "Check NHC" or n% for a positive n. *)
Theorem getTropicalOutlook_v1_shape (month : nat) (r_json : fetch_result (option (list area)))
    (r_rss : fetch_result string) (r_storms : fetch_result (option (list jsfield))) :
  outlook_text (getTropicalOutlook_v1 month r_json r_rss r_storms) <> ""
  /\ v1_chance_ok (formation_chance (getTropicalOutlook_v1 month r_json r_rss r_storms)).
Proof.
  unfold getTropicalOutlook_v1.
  destruct (json_src_v1 r_json) as [o|] eqn:Ej; [exact (json_src_v1_shape _ _ Ej)|].
  destruct (rss_src_v1 r_rss) as [o|] eqn:Er.
  { destruct r_rss as [| |xml]; try discriminate.
    destruct (rss_src_v1_shape _ _ Er) as [[n [Hn Hf]] [_ Ht]].
    split; [exact Ht|]. right; right; right. exists n. split; assumption. }
  destruct (storms_src r_storms) as [o|] eqn:Es.
  { unfold storms_src in Es. destruct r_storms as [| |[[|s ss]|]]; try discriminate.
    injection Es as <-. split; [discriminate|]. right; left; reflexivity. }
  unfold season_fallback_v1. destruct (isHurricaneSeason month).
  - split; [discriminate|]. right; right; left; reflexivity.
  - split; [discriminate|]. left; reflexivity.
Qed.

(** ** getTropicalOutlook of v2 *)

Lemma app_str1_inj (a b : string) (c d : ascii) : a ++ str1 c = b ++ str1 d -> a = b /\ c = d.
Proof.
  revert b. induction a as [|x a IH]; intros [|y b] H; simpl in H.
  - injection H as ->. split; reflexivity.
  - injection H as _ H. destruct b; discriminate.
  - injection H as _ H. destruct a; discriminate.
  - injection H as -> H. destruct (IH b H) as [-> ->]. split; reflexivity.
Qed.

Lemma z_to_string_inj (a b : Z) : z_to_string a = z_to_string b -> a = b.
Proof.
  unfold z_to_string. intro H.
  apply (f_equal NilEmpty.int_of_string) in H. rewrite !NilEmpty.isi in H.
  injection H as H. rewrite <- (DecimalZ.of_to a), <- (DecimalZ.of_to b), H. reflexivity.
Qed.

Lemma percent_string_zero (n : Z) : percent_string n = "0%" -> n = 0%Z.
Proof.
  intro H. change "0%" with (z_to_string 0 ++ str1 "%") in H.
  apply app_str1_inj in H as [H _]. exact (z_to_string_inj _ _ H).
Qed.

Lemma positive_percent_src (o : outlook) (default : string) (mx : Z) (txt : string) :
  default <> "" ->
  (if (0 <? mx)%Z then Some (mk_outlook (str_or txt default) (percent_string mx)) else None)
  = Some o ->
  outlook_text o <> "" /\ exists n, (0 < n)%Z /\ formation_chance o = percent_string n.
Proof.
  intros Hd. destruct (0 <? mx)%Z eqn:E; [|discriminate].
  intro H. injection H as <-. cbn [outlook_text formation_chance].
  split; [exact (str_or_default_nonempty _ _ Hd)|].
  exists mx. split; [apply Z.ltb_lt; exact E|reflexivity].
Qed.

(** Whatever the four sources answer, getTropicalOutlook of v2 returns a
    non-empty outlook text and a formation chance that is "0%", "Active
    Systems", "Visit NHC" or n% for a positive n; "0%" only outside
    hurricane season (the three scraping sources return only a positive
    maximum). *)
Theorem getTropicalOutlook_v2_shape (month : nat)
    (r_json : fetch_result (option (list area))) (r_html r_rss : fetch_result string)
    (r_storms : fetch_result (option (list jsfield))) :
  outlook_text (getTropicalOutlook_v2 month r_json r_html r_rss r_storms) <> ""
  /\ v2_chance_ok (formation_chance (getTropicalOutlook_v2 month r_json r_html r_rss r_storms))
  /\ (formation_chance (getTropicalOutlook_v2 month r_json r_html r_rss r_storms) = "0%" ->
      isHurricaneSeason month = false).
Proof.
  assert (Hpos : forall o, outlook_text o <> "" /\
            (exists n, (0 < n)%Z /\ formation_chance o = percent_string n) ->
          outlook_text o <> "" /\ v2_chance_ok (formation_chance o)
          /\ (formation_chance o = "0%" -> isHurricaneSeason month = false)).
  { intros o [Ht [n [Hn Hf]]]. split; [exact Ht|]. split.
    - right; right; right. exists n. split; assumption.
    - intro H0. rewrite Hf in H0. apply percent_string_zero in H0. lia. }
  unfold getTropicalOutlook_v2.
  destruct (json_src_v2 r_json) as [o|] eqn:Ej.
  { apply Hpos. unfold json_src_v2 in Ej.
    destruct r_json as [| |[[|a l]|]]; try discriminate.
    destruct (fold_areas area_step_v2 (0, 0%Z, "") (a :: l)) as [[[c mx] txt]|]; [|discriminate].
    refine (positive_percent_src _ _ mx (trim txt) _ Ej).
    cbn. discriminate. }
  destruct (html_src_v2 r_html) as [o|] eqn:Eh.
  { apply Hpos. unfold html_src_v2 in Eh. destruct r_html as [| |html]; try discriminate.
    destruct (fold_left _ _ _) as [mx txt].
    exact (positive_percent_src _ html_default_v2 mx txt
             ltac:(unfold html_default_v2; discriminate) Eh). }
  destruct (rss_src_v2 r_rss) as [o|] eqn:Er.
  { apply Hpos. unfold rss_src_v2 in Er. destruct r_rss as [| |xml]; try discriminate.
    destruct (fold_left _ _ _) as [mx txt].
    exact (positive_percent_src _ rss_default_v2 mx txt
             ltac:(unfold rss_default_v2; discriminate) Er). }
  destruct (storms_src r_storms) as [o|] eqn:Es.
  { unfold storms_src in Es. destruct r_storms as [| |[[|s ss]|]]; try discriminate.
    injection Es as <-. split; [discriminate|]. split; [right; left; reflexivity|discriminate]. }
  unfold season_fallback_v2. destruct (isHurricaneSeason month).
  - split; [discriminate|]. split; [right; right; left; reflexivity|discriminate].
  - split; [discriminate|]. split; [left; reflexivity|reflexivity].
Qed.

(** ** The NWS product parsers of v3 *)

Lemma nth_keyword_free (lines words : list string) (i : nat) :
  includes_any "" words = false ->
  (forall l, In l lines -> includes_any (to_lower l) words = false) ->
  includes_any (to_lower (nth i lines "")) words = false.
Proof.
  intros H0 H. destruct (Nat.lt_ge_cases i (List.length lines)) as [L|L].
  - apply H, nth_In, L.
  - rewrite nth_overflow by exact L. exact H0.
Qed.

Lemma nws_fold_keyword_free (lines : list string) (idx : list nat) (acc : string * Z) :
  (forall i, includes_any (to_lower (nth i lines "")) ["disturbance"; "tropical"; "development"] = false) ->
  fold_left (nws_line_step lines) idx acc = acc.
Proof.
  intro H. revert acc. induction idx as [|i idx IH]; intros [txt mx]; [reflexivity|].
  cbn [fold_left]. unfold nws_line_step at 2. rewrite H. apply IH.
Qed.

(** parseNWSTropicalOutlook returns null for a product text none of whose
    lines mentions "disturbance", "tropical" or "development" (in any
    case): no line enters the loop body, so both the text and the maximum
    keep their initial values. *)
Theorem parseNWSTropicalOutlook_no_keyword (text : string) :
  (forall l, In l (split_on (chr 10) text) ->
     includes_any (to_lower l) ["disturbance"; "tropical"; "development"] = false) ->
  parseNWSTropicalOutlook (Some text) = None.
Proof.
  intro H. unfold parseNWSTropicalOutlook.
  rewrite nws_fold_keyword_free; [reflexivity|].
  intro i. apply nth_keyword_free; [reflexivity|exact H].
Qed.

Lemma parseNWSTropicalOutlook_no_keyword_witness :
  parseNWSTropicalOutlook (Some ("NO ACTIVITY" ++ str1 (chr 10) ++ "Clear skies")) = None.
Proof.
  apply parseNWSTropicalOutlook_no_keyword.
  vm_compute. intros l [H|[H|[]]]; subst l; reflexivity.
Defined.

Lemma first_context_keyword_free (lines words : list string) (b a m c : nat) (idx : list nat) :
  (forall i, includes_any (to_lower (nth i lines "")) words = false) ->
  first_context lines words b a m c idx = "".
Proof.
  intro H. induction idx as [|i idx IH]; [reflexivity|].
  cbn [first_context]. rewrite H. exact IH.
Qed.

(** Likewise the two extractors return null for a product text none of
    whose lines mentions one of their keywords. *)
Theorem extractors_no_keyword (text : string) :
  ((forall l, In l (split_on (chr 10) text) ->
      includes_any (to_lower l) ["tropical"; "hurricane"; "depression"; "disturbance"] = false) ->
   extractTropicalFromAFD (Some text) = None)
  /\ ((forall l, In l (split_on (chr 10) text) ->
         includes_any (to_lower l) ["tropical"; "cyclone"; "storm"] = false) ->
      extractTropicalFromMarine (Some text) = None).
Proof.
  split; intro H.
  - unfold extractTropicalFromAFD.
    rewrite first_context_keyword_free; [reflexivity|].
    intro i. apply nth_keyword_free; [reflexivity|exact H].
  - unfold extractTropicalFromMarine.
    rewrite first_context_keyword_free; [reflexivity|].
    intro i. apply nth_keyword_free; [reflexivity|exact H].
Qed.

Lemma extractors_no_keyword_witness :
  extractTropicalFromAFD (Some ("NO ACTIVITY" ++ str1 (chr 10) ++ "Clear skies")) = None
  /\ extractTropicalFromMarine (Some ("NO ACTIVITY" ++ str1 (chr 10) ++ "Clear skies")) = None.
Proof.
  split.
  - apply (proj1 (extractors_no_keyword ("NO ACTIVITY" ++ str1 (chr 10) ++ "Clear skies"))).
    vm_compute. intros l [H|[H|[]]]; subst l; reflexivity.
  - apply (proj2 (extractors_no_keyword ("NO ACTIVITY" ++ str1 (chr 10) ++ "Clear skies"))).
    vm_compute. intros l [H|[H|[]]]; subst l; reflexivity.
Defined.

Lemma length_take_n (n : nat) (s : string) :
  String.length (take_n n s) = Nat.min n (String.length s).
Proof.
  revert s. induction n as [|n IH]; intros [|c s]; simpl; try reflexivity.
  rewrite IH. reflexivity.
Qed.

Lemma first_context_cases (lines words : list string) (b a m c : nat) (idx : list nat) :
  first_context lines words b a m c idx = ""
  \/ exists ctx, m < String.length ctx
                /\ first_context lines words b a m c idx = take_n c ctx ++ "...".
Proof.
  induction idx as [|i idx IH]; [left; reflexivity|].
  cbn [first_context].
  destruct (includes_any _ words); [|exact IH].
  match goal with |- context [if (m <? String.length ?ctx) then _ else _] =>
    destruct (m <? String.length ctx) eqn:E; [right; exists ctx; split; [apply Nat.ltb_lt; exact E|reflexivity]|exact IH] end.
Qed.

Lemma first_context_length (lines words : list string) (b a m c : nat) (idx : list nat) :
  first_context lines words b a m c idx <> "" ->
  Nat.min c (S m) + 3 <= String.length (first_context lines words b a m c idx) <= c + 3.
Proof.
  intro H. destruct (first_context_cases lines words b a m c idx) as [E|[ctx [L E]]];
    [contradiction|].
  rewrite E, length_app_str, length_take_n. simpl. lia.
Qed.

(** An outlook of extractTropicalFromAFD has a text of 104 to 403
    characters, one of extractTropicalFromMarine 84 to 303: a context
    longer than 100 (80) characters cut at 400 (300), and "...". *)
Theorem extractors_excerpt_length (t : option string) (o : outlook) :
  (extractTropicalFromAFD t = Some o ->
   104 <= String.length (outlook_text o) <= 403)
  /\ (extractTropicalFromMarine t = Some o ->
      84 <= String.length (outlook_text o) <= 303).
Proof.
  split; destruct t as [text|]; try discriminate;
    [unfold extractTropicalFromAFD|unfold extractTropicalFromMarine];
    match goal with |- context [String.eqb ?c ""] =>
      destruct (String.eqb c "") eqn:E; [discriminate|];
      intro H; injection H as <-; cbn [outlook_text];
      apply String.eqb_neq in E; apply first_context_length in E; simpl in E; lia end.
Qed.

Lemma extractors_excerpt_length_witness :
  let afd := "AREA FORECAST DISCUSSION" ++ str1 (chr 10) ++ "A tropical wave over the central Atlantic has a 20 percent chance of development over the next seven days as it moves west at 15 mph." in
  let txt := "AREA FORECAST DISCUSSION A tropical wave over the central Atlantic has a 20 percent chance of development over the next seven days as it moves west at 15 mph...." in
  (extractTropicalFromAFD (Some afd) = Some (mk_outlook txt "20%")
   /\ 104 <= String.length txt <= 403)
  /\ (extractTropicalFromMarine (Some afd) = Some (mk_outlook txt "See Marine Forecast")
      /\ 84 <= String.length txt <= 303).
Proof.
  intros afd txt.
  assert (Ha : extractTropicalFromAFD (Some afd) = Some (mk_outlook txt "20%"))
    by (vm_compute; reflexivity).
  assert (Hm : extractTropicalFromMarine (Some afd) = Some (mk_outlook txt "See Marine Forecast"))
    by (vm_compute; reflexivity).
  split; split; [exact Ha| |exact Hm|].
  - exact (proj1 (extractors_excerpt_length (Some afd) (mk_outlook txt "20%")) Ha).
  - exact (proj2 (extractors_excerpt_length (Some afd) (mk_outlook txt "See Marine Forecast")) Hm).
Defined.

(** ** Tropical alerts and the result of v3 *)

Lemma active_alerts_nil_iff (clock : nat -> Z) (k : nat) (l : list alert) :
  active_alerts clock k l = []
  <-> forall i a, nth_error l i = Some a -> is_active (clock (k + i)) a = false.
Proof.
  revert k. induction l as [|b l IH]; intro k; cbn [active_alerts].
  - split; [intros _ [|i] a H; discriminate|reflexivity].
  - destruct (is_active (clock k) b) eqn:E.
    + split; [discriminate|]. intro H. specialize (H 0 b eq_refl).
      rewrite Nat.add_0_r in H. congruence.
    + rewrite IH. split.
      * intros H [|i] a Ha; cbn in Ha.
        -- injection Ha as <-. rewrite Nat.add_0_r. exact E.
        -- rewrite <- Nat.add_succ_comm. exact (H i a Ha).
      * intros H i a Ha. rewrite Nat.add_succ_comm. exact (H (S i) a Ha).
Qed.

(** processTropicalAlerts returns null exactly when no alert is active at
    the clock reading taken for it (for an empty list in particular), and
    otherwise an outlook with formation chance "Active System". *)
Theorem processTropicalAlerts_null_iff_none_active (clock : nat -> Z) (alerts : list alert) :
  (processTropicalAlerts clock alerts = None
   <-> forall i a, nth_error alerts i = Some a -> is_active (clock i) a = false)
  /\ forall o, processTropicalAlerts clock alerts = Some o -> formation_chance o = "Active System".
Proof.
  unfold processTropicalAlerts. split.
  - rewrite <- (active_alerts_nil_iff clock 0 alerts).
    destruct (active_alerts clock 0 alerts); split; congruence.
  - intro o. destruct (active_alerts clock 0 alerts); [discriminate|].
    intro H. injection H as <-. reflexivity.
Qed.

Lemma set_values_fold (l acc : list string) :
  NoDup acc ->
  NoDup (fold_left (fun acc x => if existsb (String.eqb x) acc then acc else (acc ++ [x])%list) l acc)
  /\ forall x, In x (fold_left (fun acc x => if existsb (String.eqb x) acc then acc else (acc ++ [x])%list) l acc)
               <-> In x acc \/ In x l.
Proof.
  revert acc. induction l as [|y l IH]; intros acc Hn; cbn [fold_left].
  - split; [exact Hn|]. intro x. simpl. tauto.
  - destruct (existsb (String.eqb y) acc) eqn:E.
    + destruct (IH acc Hn) as [H1 H2]. split; [exact H1|].
      intro x. rewrite H2. simpl. apply existsb_exists in E as [z [Hz Ez]].
      apply String.eqb_eq in Ez. subst z. split; [tauto|]. intros [H|[<-|H]]; tauto.
    + assert (Hn' : NoDup (acc ++ [y])%list).
      { apply NoDup_app; [exact Hn|constructor; [intros []|constructor]|].
        intros x Hx [Hy|[]]. subst x. assert (existsb (String.eqb y) acc = true) by
          (apply existsb_exists; exists y; split; [exact Hx|apply String.eqb_refl]).
        congruence. }
      destruct (IH _ Hn') as [H1 H2]. split; [exact H1|].
      intro x. rewrite H2, in_app_iff. simpl. tauto.
Qed.

Lemma set_values_spec (l : list string) :
  NoDup (set_values l) /\ forall x, In x (set_values l) <-> In x l.
Proof.
  unfold set_values. destruct (set_values_fold l [] (NoDup_nil _)) as [H1 H2].
  split; [exact H1|]. intro x. rewrite H2. simpl. tauto.
Qed.

(** When processTropicalAlerts returns an outlook, its text names the
    event of every active alert (repeats included) and then a list of
    affected areas that holds the area of every active alert once, however
    many active alerts share it. *)
Theorem processTropicalAlerts_areas_once (clock : nat -> Z) (alerts : list alert) (o : outlook) :
  processTropicalAlerts clock alerts = Some o ->
  exists areas,
    outlook_text o
    = "Active tropical weather alerts: " ++ join ", " (map event (active_alerts clock 0 alerts))
      ++ " affecting " ++ join ", " areas
      ++ ". Monitor National Weather Service for updates and follow all evacuation orders."
    /\ NoDup areas
    /\ forall x, In x areas <-> In x (map areaDesc (active_alerts clock 0 alerts)).
Proof.
  unfold processTropicalAlerts. destruct (active_alerts clock 0 alerts) as [|a l] eqn:E;
    [discriminate|].
  intro H. injection H as <-.
  exists (set_values (map areaDesc (a :: l))). split; [reflexivity|].
  exact (set_values_spec _).
Qed.

Lemma processTropicalAlerts_areas_once_witness :
  exists areas,
    outlook_text (mk_outlook
      "Active tropical weather alerts: Hurricane Warning, Storm Surge Warning affecting Chatham. Monitor National Weather Service for updates and follow all evacuation orders."
      "Active System")
    = "Active tropical weather alerts: "
      ++ join ", " (map event (active_alerts (fun _ => 10%Z) 0
           [mk_alert "Hurricane Warning" "Extreme" (Some 20%Z) "Chatham";
            mk_alert "Storm Surge Warning" "Extreme" (Some 20%Z) "Chatham"]))
      ++ " affecting " ++ join ", " areas
      ++ ". Monitor National Weather Service for updates and follow all evacuation orders."
    /\ NoDup areas
    /\ forall x, In x areas <-> In x (map areaDesc (active_alerts (fun _ => 10%Z) 0
           [mk_alert "Hurricane Warning" "Extreme" (Some 20%Z) "Chatham";
            mk_alert "Storm Surge Warning" "Extreme" (Some 20%Z) "Chatham"])).
Proof.
  apply (processTropicalAlerts_areas_once (fun _ => 10%Z)
           [mk_alert "Hurricane Warning" "Extreme" (Some 20%Z) "Chatham";
            mk_alert "Storm Surge Warning" "Extreme" (Some 20%Z) "Chatham"]).
  vm_compute. reflexivity.
Defined.

Lemma percent_string_nonempty (z : Z) : percent_string z <> "".
Proof. apply append_nonempty_r. discriminate. Qed.

(** Whenever getTropicalOutlook of v3 returns an outlook (not null), its
    text and its formation chance are both non-empty, so the report shows
    them rather than its "not available" and "N/A" defaults. *)
Theorem getTropicalOutlook_v3_nonempty_fields (month : nat) (clock : nat -> Z)
    (r_two : product_src) (r_alerts : fetch_result (list alert))
    (r_afd r_hsp : product_src) (o : outlook) :
  getTropicalOutlook_v3 month clock r_two r_alerts r_afd r_hsp = Some o ->
  outlook_text o <> "" /\ formation_chance o <> "".
Proof.
  unfold getTropicalOutlook_v3.
  destruct r_two as [| | | |[text|]]; cbn [method1_v3];
    [| | | |unfold parseNWSTropicalOutlook; 
             destruct (fold_left _ _ _) as [txt mx];
             destruct (_ || _); [|discriminate];
             intro H; injection H as <-; cbn [outlook_text formation_chance];
             split; [apply str_or_default_nonempty; discriminate|];
             destruct (0 <? mx)%Z; [apply percent_string_nonempty|discriminate]
       |discriminate].
  all: destruct r_alerts as [| |[|a l]]; cbn [method2_v3];
    [| | |unfold processTropicalAlerts; destruct (active_alerts clock 0 (a :: l));
            [discriminate|intro H; injection H as <-; split; discriminate]].
  all: destruct r_afd as [| | | |t]; cbn [method_checked];
    try (destruct (extractTropicalFromAFD t) as [o'|] eqn:Ea;
         [intro H; injection H as <-; unfold extractTropicalFromAFD in Ea;
          destruct t as [text|]; [|discriminate];
          destruct (String.eqb _ "") eqn:Ec; [discriminate|];
          injection Ea as <-; cbn [outlook_text formation_chance];
          apply String.eqb_neq in Ec; split; [exact Ec|];
          destruct (percent_word_match _); [apply append_nonempty_r; discriminate|discriminate]|]).
  all: destruct r_hsp as [| | | |t']; cbn [method_checked];
    try (destruct (extractTropicalFromMarine t') as [o'|] eqn:Em;
         [intro H; injection H as <-; unfold extractTropicalFromMarine in Em;
          destruct t' as [text|]; [|discriminate];
          destruct (String.eqb _ "") eqn:Ec; [discriminate|];
          injection Em as <-; cbn [outlook_text formation_chance];
          apply String.eqb_neq in Ec; split; [exact Ec|discriminate]|]).
  all: intro H; injection H as <-; unfold season_fallback_v3;
    destruct (isHurricaneSeason month); split; discriminate.
Qed.

Lemma getTropicalOutlook_v3_nonempty_fields_witness :
  getTropicalOutlook_v3 7 (fun _ => 0%Z) PThrows FNotOk
    (PProduct (Some ("AREA FORECAST DISCUSSION" ++ str1 (chr 10) ++ "A tropical wave over the central Atlantic has a 20 percent chance of development over the next seven days as it moves west at 15 mph.")))
    PThrows
  = Some (mk_outlook "AREA FORECAST DISCUSSION A tropical wave over the central Atlantic has a 20 percent chance of development over the next seven days as it moves west at 15 mph...." "20%")
  /\ ("AREA FORECAST DISCUSSION A tropical wave over the central Atlantic has a 20 percent chance of development over the next seven days as it moves west at 15 mph...." <> ""
      /\ "20%" <> "").
Proof.
  assert (H : getTropicalOutlook_v3 7 (fun _ => 0%Z) PThrows FNotOk
    (PProduct (Some ("AREA FORECAST DISCUSSION" ++ str1 (chr 10) ++ "A tropical wave over the central Atlantic has a 20 percent chance of development over the next seven days as it moves west at 15 mph.")))
    PThrows
  = Some (mk_outlook "AREA FORECAST DISCUSSION A tropical wave over the central Atlantic has a 20 percent chance of development over the next seven days as it moves west at 15 mph...." "20%"))
    by (vm_compute; reflexivity).
  split; [exact H|]. exact (getTropicalOutlook_v3_nonempty_fields _ _ _ _ _ _ _ H).
Defined.

(** ** ConditionComposer and ReportRenderer *)

Lemma active_alerts_const (now : Z) (i : nat) (l : list alert) :
  active_alerts (fun _ => now) i l = filter (is_active now) l.
Proof.
  revert i. induction l as [|a l IH]; intro i; [reflexivity|].
  cbn [active_alerts filter]. rewrite !IH. reflexivity.
Qed.

Lemma filter_idem {A} (f : A -> bool) (l : list A) : filter f (filter f l) = filter f l.
Proof.
  induction l as [|a l IH]; [reflexivity|]. cbn [filter].
  destruct (f a) eqn:E; [cbn [filter]; rewrite E, IH|]; [reflexivity|exact IH].
Qed.

(** When the clock does not move while the alerts are filtered,
    processAlerts gives the same text for the alerts and for the alerts
    still active: expired alerts have no effect on the conditions. *)
Theorem processAlerts_drop_expired (now : Z) (st : string) (alerts : list alert) (hot : bool) :
  processAlerts (fun _ => now) st alerts hot
  = processAlerts (fun _ => now) st (filter (is_active now) alerts) hot.
Proof.
  unfold processAlerts, warnings_of, watches_of, advisories_of.
  rewrite !active_alerts_const, filter_idem. reflexivity.
Qed.

(** For a single active alert, processAlerts reports it once in each
    group whose test it passes, so a "Severe" or "Extreme" watch is listed
    both as a warning and as a watch, followed by the seasonal sentence. *)
Theorem processAlerts_single_active (clock : nat -> Z) (st : string) (a : alert) (hot : bool) :
  is_active (clock 0) a = true ->
  processAlerts clock st [a] hot
  = (if is_warning a then "Active " ++ event a ++ " WARNINGS in effect. " else "")
    ++ (if is_watch a then event a ++ " WATCHES in effect. " else "")
    ++ (if is_advisory a then event a ++ " ADVISORIES in effect. " else "")
    ++ getSeasonalConditions st hot.
Proof.
  intro H. unfold processAlerts, warnings_of, watches_of, advisories_of.
  cbn [active_alerts]. rewrite H.
  rewrite str_or_nonempty.
  - cbn [filter].
    destruct (is_warning a), (is_watch a), (is_advisory a); cbn [group_sentence map join];
      rewrite <- ?append_assoc_str; reflexivity.
  - apply append_nonempty_r, getSeasonalConditions_nonempty.
Qed.

Lemma processAlerts_single_active_witness :
  processAlerts (fun _ => 0%Z) "Florida" [mk_alert "Tornado Watch" "Severe" (Some 10%Z) "Miami-Dade"] true
  = "Active Tornado Watch WARNINGS in effect. Tornado Watch WATCHES in effect. "
    ++ getSeasonalConditions "Florida" true.
Proof.
  rewrite (processAlerts_single_active (fun _ => 0%Z) "Florida"
             (mk_alert "Tornado Watch" "Severe" (Some 10%Z) "Miami-Dade") true eq_refl).
  vm_compute. reflexivity.
Defined.

(** processAlerts always ends with the seasonal sentence and never
    returns its "No significant weather hazards" default. *)
Theorem processAlerts_ends_with_season (clock : nat -> Z) (st : string) (alerts : list alert) (hot : bool) :
  (exists pre, processAlerts clock st alerts hot = pre ++ getSeasonalConditions st hot)
  /\ processAlerts clock st alerts hot
     <> "No significant weather hazards reported for " ++ st ++ " at this time.".
Proof.
  destruct (processAlerts_shape clock st alerts hot) as [pre E].
  split; [exists pre; exact E|]. rewrite E. intro H.
  assert (Hs : exists s, getSeasonalConditions st hot = s ++ str1 " ") by
    (destruct hot;
     [exists "Monitor for heat stress during outdoor activities. Stay hydrated and seek air conditioning during peak heating hours."
     |exists "Typical seasonal weather patterns expected. Monitor for changing conditions."];
     reflexivity).
  destruct Hs as [s Hs]. rewrite Hs, append_assoc_str in H.
  change " at this time." with (" at this time" ++ str1 ".") in H.
  rewrite (append_assoc_str st), (append_assoc_str "No significant weather hazards reported for ") in H.
  apply app_str1_inj in H as [_ H]. discriminate.
Qed.

Lemma includes_false_count (p s : string) : includes s p = false -> count_occurrences p s = 0.
Proof.
  induction s as [|c t IH]; intro H; [reflexivity|].
  change (includes (String c t) p) with (starts_with p (String c t) || includes t p) in H.
  apply orb_false_elim in H as [H1 H2]. cbn [count_occurrences]. rewrite H1, (IH H2).
  reflexivity.
Qed.

Lemma apply_rules_untouched (l : list (string * string)) (s : string) :
  forallb (fun pr => negb (includes s (fst pr))) l = true -> apply_rules l s = s.
Proof.
  unfold apply_rules. induction l as [|pr l IH]; intro H; [reflexivity|].
  cbn [forallb] in H. apply andb_prop in H as [H1 H2].
  cbn [fold_left]. rewrite count_zero_replace; [exact (IH H2)|].
  apply includes_false_count. destruct (includes s (fst pr)); [discriminate|reflexivity].
Qed.

(** The highlighting chain of generateReport leaves a state's text
    unchanged when it contains none of the six highlighted phrases. *)
Theorem highlight_untouched (s : string) :
  forallb (fun pr => negb (includes s (fst pr))) highlight_rules = true -> highlight s = s.
Proof. intro H. rewrite highlight_apply_rules. exact (apply_rules_untouched _ _ H). Qed.

Lemma highlight_untouched_witness :
  highlight "Typical seasonal weather patterns expected. Monitor for changing conditions. "
  = "Typical seasonal weather patterns expected. Monitor for changing conditions. ".
Proof. apply highlight_untouched. vm_compute. reflexivity. Defined.
